(** * Uptime / latency monitoring backend: a shallow embedding

    The development follows the step handlers of the backend:

    - [PingMonitor]        (probe executor, event step on PING_MONITOR)
    - [MonitorDown], [handlerRecovered]   (alert state machine)
    - [CheckAnomaly]       (z-score anomaly detector)
    - [SendAlert]          (alert router)
    - [CreateMonitorAPI]   (registration endpoint)
    - [MonitorStatusSSE]   (status streamer)

    Conventions.  The key/value state service is a record of finite maps,
    one per group, keyed by monitor id.  JavaScript numbers that carry
    integers (status codes, millisecond clocks, counters) are [Z]; numbers
    that go through means, square roots and quotients are real numbers [R]
    (no rounding; NaN only occurs in the source as the marker of a missing
    latency and is covered by [option]).  [undefined]/[null] is [None]. *)

From stdpp Require Import base option list sorting gmap strings.
From Stdlib Require Import ZArith QArith_base Reals Lra Lia.

Local Open Scope Z_scope.

(** ** JavaScript truthiness on optional strings *)

Module Js.

(** [!!s] for [s : string | undefined | null]. *)
Definition truthy (s : option string) : bool :=
  match s with
  | Some EmptyString => false
  | Some _ => true
  | None => false
  end.

(** [a || b]. *)
Definition or (a b : option string) : option string :=
  if truthy a then a else b.

(** [a ?? d]. *)
Definition nullish {A} (a : option A) (d : A) : A :=
  match a with Some x => x | None => d end.

End Js.

(** ** Data model shared by the steps *)

Inductive AlertState := UP | DOWN | ALERTED.
Inductive Severity := NORMAL | WARNING | CRITICAL.

#[global] Instance AlertState_eq_dec : EqDecision AlertState.
Proof. solve_decision. Defined.
#[global] Instance Severity_eq_dec : EqDecision Severity.
Proof. solve_decision. Defined.

(** [type Metric] of the event steps; the optional fields are optional in
    the source as well. *)
Record Metric := mkMetric {
  m_monitorId : string;
  m_timestamp : string;
  m_latency : option R;
  m_statusCode : option Z;
  m_success : option bool
}.

(** The monitor configuration object as stored by the creation endpoint,
    with the two extra fields the alert router looks up. *)
Record MonitorConfig := mkMonitor {
  mc_id : string;
  mc_url : option string;
  mc_name : option string;
  mc_failureThreshold : option Z;
  mc_timeoutMs : option Z;
  mc_alertWebhookUrl : option string;
  mc_alertTo : option string;
  mc_emailFrom : option string;
  mc_emailApiUrl : option string;
  mc_emailApiKey : option string;
  mc_createdAt : string
}.

(** Statistics of one dimension of the anomaly result. *)
Record Stat := mkStat { s_value : R; s_mean : R; s_stdev : R; s_z : R }.

Record AnomalyDetail := mkDetail {
  d_severity : Severity;
  d_samples : nat;
  d_latency : Stat;
  d_error_rate : Stat
}.

(** What [CheckAnomaly] returns: the two early returns carry a reason and
    no statistics. *)
Inductive AnomalyResult :=
| NoMetrics   (* { severity: 'NORMAL', reason: 'no_metrics' } *)
| NoLatency   (* { severity: 'NORMAL', reason: 'no_latency' } *)
| Detail (d : AnomalyDetail).

Definition result_severity (r : AnomalyResult) : Severity :=
  match r with
  | NoMetrics | NoLatency => NORMAL
  | Detail d => d_severity d
  end.

Definition result_reason (r : AnomalyResult) : option string :=
  match r with
  | NoMetrics => Some "no_metrics"%string
  | NoLatency => Some "no_latency"%string
  | Detail _ => None
  end.

(** The [diagnostic] payload of SEND_ALERT ([z.any().optional()]): either
    the recovery marker [{ recovered: true }] or an anomaly result. *)
Inductive Diagnostic :=
| DiagRecovered
| DiagAnomaly (d : AnomalyDetail).

(** Topics on the event bus with their payloads. *)
Inductive Event :=
| PING_MONITOR (monitorId : string)
| CHECK_ANOMALY (monitorId : string)
| MONITOR_DOWN (monitorId : string)
| MONITOR_RECOVERED (monitorId : string)
| SEND_ALERT (monitorId : string) (severity : Severity)
             (diagnostic : option Diagnostic).

(** The state service: groups 'monitors', 'monitor-metrics',
    'monitor-failures' and 'monitor-state'.  A metric key
    [`${monitorId}:${Date.now()}`] is kept as the pair it is built from. *)
Record Store := mkStore {
  monitors : gmap string MonitorConfig;
  monitor_metrics : gmap (string * Z) Metric;
  monitor_failures : gmap string Z;
  monitor_state : gmap string AlertState
}.

Definition set_metric (k : string * Z) (m : Metric) (st : Store) : Store :=
  mkStore (monitors st) (<[k := m]> (monitor_metrics st))
          (monitor_failures st) (monitor_state st).

Definition set_failures (k : string) (n : Z) (st : Store) : Store :=
  mkStore (monitors st) (monitor_metrics st)
          (<[k := n]> (monitor_failures st)) (monitor_state st).

Definition set_state (k : string) (s : AlertState) (st : Store) : Store :=
  mkStore (monitors st) (monitor_metrics st)
          (monitor_failures st) (<[k := s]> (monitor_state st)).

(** ** Probe executor: the PingMonitor step *)

Module PingMonitor.

(** How [axios.get(url, { timeout: timeoutMs, validateStatus: () => true })]
    ends: it resolves with a response, whatever its status, or it rejects
    (network error, timeout) with an error that may carry a response. *)
Inductive AxiosOutcome :=
| Resolved (status : Z)
| Rejected (response_status : option Z).

(** The four clock readings of one handler run. *)
Record Clock := mkClock {
  t_start : Z;   (* const start = Date.now() *)
  t_stamp : Z;   (* new Date() of the metric timestamp *)
  t_end : Z;     (* Date.now() of the latency *)
  t_key : Z      (* Date.now() of the metric key *)
}.

(** The try/catch around the request: [(statusCode, success)]. *)
Definition classify (o : AxiosOutcome) : Z * bool :=
  match o with
  | Resolved status => (status, status <? 400)
  | Rejected response_status => (Js.nullish response_status 0, false)
  end.

Section Handler.
(** [Date.prototype.toISOString] of a time in milliseconds. *)
Variable toISOString : Z -> string.

Definition build_metric (monitorId : string) (o : AxiosOutcome) (ck : Clock)
    : Metric :=
  let '(statusCode, success) := classify o in
  mkMetric monitorId (toISOString (t_stamp ck))
           (Some (IZR (t_end ck - t_start ck)))
           (Some statusCode) (Some success).

(** The second try block of the handler: the metric is persisted, the
    failure counter updated, the state moved and the events emitted. *)
Definition record_and_transition (monitorId : string) (failureThreshold : Z)
    (success : bool) (metric : Metric) (ck : Clock) (st : Store)
    : Store * list Event :=
  let st := set_metric (monitorId, t_key ck) metric st in
  let prevFailures := Js.nullish (monitor_failures st !! monitorId) 0 in
  if success then
    let st := if bool_decide (prevFailures ≠ 0)
              then set_failures monitorId 0 st else st in
    let prevState := monitor_state st !! monitorId in
    let '(st, ev) :=
      if bool_decide (prevState = Some DOWN ∨ prevState = Some ALERTED)
      then (set_state monitorId UP st, [MONITOR_RECOVERED monitorId])
      else (st, []) in
    (st, ev ++ [CHECK_ANOMALY monitorId])
  else
    let newFailures := prevFailures + 1 in
    let st := set_failures monitorId newFailures st in
    if failureThreshold <=? newFailures then
      let prevState := monitor_state st !! monitorId in
      if bool_decide (prevState ≠ Some DOWN ∧ prevState ≠ Some ALERTED)
      then (set_state monitorId DOWN st, [MONITOR_DOWN monitorId])
      else (st, [])
    else (st, []).

(** The handler.  The result is the new store, the events emitted and the
    metric recorded, which is also the one sent to the status stream; a
    missing monitor or a monitor without URL is a no-op.  [o] is how the
    request to the monitor's URL ends. *)
Definition handler (monitorId : string) (o : AxiosOutcome) (ck : Clock)
    (st : Store) : Store * list Event * option Metric :=
  match monitors st !! monitorId with
  | None => (st, [], None)
  | Some monitor =>
      if negb (Js.truthy (mc_url monitor)) then (st, [], None)
      else
        let failureThreshold := Js.nullish (mc_failureThreshold monitor) 3 in
        let metric := build_metric monitorId o ck in
        let '(st', ev) :=
          record_and_transition monitorId failureThreshold
            (snd (classify o)) metric ck st in
        (st', ev, Some metric)
  end.
End Handler.

End PingMonitor.

(** ** Alert state machine: the MonitorDown and MonitorRecovered steps *)

Module MonitorState.

(** [handler] of monitor-state.step.ts (MONITOR_DOWN). *)
Definition handler (monitorId : string) (st : Store) : Store * list Event :=
  let prevState := monitor_state st !! monitorId in
  if bool_decide (prevState = Some ALERTED) then (st, [])
  else (set_state monitorId ALERTED st,
        [SEND_ALERT monitorId CRITICAL None]).

(** [handlerRecovered] (MONITOR_RECOVERED). *)
Definition handlerRecovered (monitorId : string) (st : Store)
    : Store * list Event :=
  let prevState := monitor_state st !! monitorId in
  if bool_decide (prevState = None ∨ prevState = Some UP)
  then (set_state monitorId UP st, [])
  else (set_state monitorId UP (set_failures monitorId 0 st),
        [SEND_ALERT monitorId NORMAL (Some DiagRecovered)]).

End MonitorState.


(** ** The event bus between the probe executor and the state machine

    One probe of the pipeline: the PingMonitor step runs, and every event
    it emitted is handed to the step that subscribes to its topic before
    the next probe starts.  MONITOR_DOWN and MONITOR_RECOVERED go to the
    two handlers of the alert state machine; CHECK_ANOMALY goes to the
    anomaly detector, which is modelled on its own below and never writes
    to the store.  The result collects what the state machine emitted. *)

Module Pipeline.

Definition deliver (e : Event) (st : Store) : Store * list Event :=
  match e with
  | MONITOR_DOWN monitorId => MonitorState.handler monitorId st
  | MONITOR_RECOVERED monitorId => MonitorState.handlerRecovered monitorId st
  | _ => (st, [])
  end.

Fixpoint deliver_all (evs : list Event) (st : Store) : Store * list Event :=
  match evs with
  | [] => (st, [])
  | e :: evs' =>
      let '(st1, out1) := deliver e st in
      let '(st2, out2) := deliver_all evs' st1 in
      (st2, out1 ++ out2)
  end.

Section Run.
Variable toISOString : Z -> string.

Definition probe (monitorId : string)
    (p : PingMonitor.AxiosOutcome * PingMonitor.Clock) (st : Store)
    : Store * list Event :=
  let '(st1, evs, _) :=
    PingMonitor.handler toISOString monitorId (fst p) (snd p) st in
  deliver_all evs st1.

Fixpoint run (monitorId : string)
    (ps : list (PingMonitor.AxiosOutcome * PingMonitor.Clock)) (st : Store)
    : Store * list Event :=
  match ps with
  | [] => (st, [])
  | p :: ps' =>
      let '(st1, out1) := probe monitorId p st in
      let '(st2, out2) := run monitorId ps' st1 in
      (st2, out1 ++ out2)
  end.

(** The same pipeline when the bus hands the events over later: the
    emitted events wait in a queue, and a delivery may happen at any time
    between probes. *)
Record Bus := mkBus {
  bus_store : Store;
  bus_pending : list Event;
  bus_sent : list Event
}.

Inductive Move :=
| Probe (p : PingMonitor.AxiosOutcome * PingMonitor.Clock)
| Deliver.

Definition move (monitorId : string) (b : Bus) (m : Move) : Bus :=
  match m with
  | Probe p =>
      let '(st, evs, _) :=
        PingMonitor.handler toISOString monitorId (fst p) (snd p)
                            (bus_store b) in
      mkBus st (bus_pending b ++ evs) (bus_sent b)
  | Deliver =>
      match bus_pending b with
      | [] => b
      | e :: rest =>
          let '(st, out) := deliver e (bus_store b) in
          mkBus st rest (bus_sent b ++ out)
      end
  end.

Definition moves (monitorId : string) (ms : list Move) (b : Bus) : Bus :=
  fold_left (move monitorId) ms b.
End Run.

(** A probe is a failed one when the executor records [success = false]. *)
Definition failed (p : PingMonitor.AxiosOutcome * PingMonitor.Clock) : Prop :=
  snd (PingMonitor.classify (fst p)) = false.

Definition threshold_of (monitor : MonitorConfig) : Z :=
  Js.nullish (mc_failureThreshold monitor) 3.

Definition failures_of (monitorId : string) (st : Store) : Z :=
  Js.nullish (monitor_failures st !! monitorId) 0.

Definition outage_open (monitorId : string) (st : Store) : Prop :=
  monitor_state st !! monitorId = Some DOWN
  ∨ monitor_state st !! monitorId = Some ALERTED.

Definition failed_move (m : Move) : Prop :=
  match m with
  | Probe p => failed p
  | Deliver => True
  end.

(** The down-alert request of a monitor. *)
Definition down_alert (monitorId : string) : Event :=
  SEND_ALERT monitorId CRITICAL None.

(** Where an outage stands on the deferred bus: nothing has happened, the
    down event is waiting, or the alert has been sent. *)
Inductive Phase (monitorId : string) (b : Bus) : Prop :=
| Quiet :
    ¬ outage_open monitorId (bus_store b) →
    bus_pending b = [] → bus_sent b = [] → Phase monitorId b
| Waiting :
    monitor_state (bus_store b) !! monitorId = Some DOWN →
    bus_pending b = [MONITOR_DOWN monitorId] → bus_sent b = [] →
    Phase monitorId b
| Alerted :
    monitor_state (bus_store b) !! monitorId = Some ALERTED →
    bus_pending b = [] → bus_sent b = [down_alert monitorId] →
    Phase monitorId b.

(** A registered monitor with the defaults of the creation endpoint, and
    the probes of the scenarios: three refused connections, one 503 and
    one 200. *)
Definition demo_monitor : MonitorConfig :=
  mkMonitor "m1" (Some "https://example.org/health") None (Some 3)
            (Some 5000) None None None None None "2026-01-01T00:00:00.000Z".

Definition demo_store (failures : gmap string Z)
    (states : gmap string AlertState) : Store :=
  mkStore {[ "m1"%string := demo_monitor ]} ∅ failures states.

Definition demo_iso (t : Z) : string := "2026-01-01T00:00:00.000Z".

Definition refused (t : Z) : PingMonitor.AxiosOutcome * PingMonitor.Clock :=
  (PingMonitor.Rejected None, PingMonitor.mkClock t t (t + 12) (t + 13)).

Definition answered (status t : Z)
    : PingMonitor.AxiosOutcome * PingMonitor.Clock :=
  (PingMonitor.Resolved status, PingMonitor.mkClock t t (t + 80) (t + 81)).

End Pipeline.

(** ** Anomaly detector: the CheckAnomaly step *)

Module CheckAnomaly.

Local Open Scope R_scope.

(** [nums.reduce((s, v) => s + v, 0) / nums.length], 0 on the empty array. *)
Definition mean (nums : list R) : R :=
  match nums with
  | [] => 0
  | _ => fold_left (fun s v => s + v) nums 0 / INR (length nums)
  end.

Definition pstdev (nums : list R) : R :=
  match nums with
  | [] => 0
  | _ =>
      let mu := mean nums in
      let sumSq := fold_left (fun s v => s + (v - mu) * (v - mu)) nums 0 in
      sqrt (sumSq / INR (length nums))
  end.

Definition severityFromZ (z : R) : Severity :=
  let az := Rabs z in
  if Rlt_dec 3 az then CRITICAL
  else if Rlt_dec 2 az then WARNING
  else NORMAL.

(** [stdev > 0 ? (value - mean) / stdev : 0]. *)
Definition zscore (value mu stdev : R) : R :=
  if Rlt_dec 0 stdev then (value - mu) / stdev else 0.

(** The overall severity of the handler. *)
Definition overall (sevLatency sevError : Severity) : Severity :=
  if bool_decide (sevLatency = CRITICAL ∨ sevError = CRITICAL) then CRITICAL
  else if bool_decide (sevLatency = WARNING ∨ sevError = WARNING) then WARNING
  else NORMAL.

(** The order CRITICAL > WARNING > NORMAL and the more severe of two
    severities, as the design states them. *)
Definition rank (s : Severity) : nat :=
  match s with NORMAL => 0 | WARNING => 1 | CRITICAL => 2 end.

Definition more_severe (a b : Severity) : Severity :=
  if (rank a <? rank b)%nat then b else a.

Local Open Scope Z_scope.

(** Stable insertion sort by an integer key, the model of
    [Array.prototype.sort((a, b) => key(a) - key(b))]. *)
Fixpoint insert_by {A} (key : A -> Z) (x : A) (l : list A) : list A :=
  match l with
  | [] => [x]
  | y :: l' => if key x <=? key y then x :: l else y :: insert_by key x l'
  end.

Definition sort_by {A} (key : A -> Z) (l : list A) : list A :=
  foldr (insert_by key) [] l.

Section Handler.
(** [new Date(ts).getTime()], [None] when it is NaN. *)
Variable Date_parse : string -> option Z.

Definition parseISO (ts : string) : option Z :=
  match ts with
  | EmptyString => None
  | _ => Date_parse ts
  end.

(** A metric of the window together with its parsed time [_ts]. *)
Definition Stamped : Type := Metric * Z.

(** The collection loop over the whole 'monitor-metrics' group. *)
Fixpoint collect (monitorId : string) (windowStart : Z) (all : list Metric)
    : list Stamped :=
  match all with
  | [] => []
  | m :: rest =>
      if bool_decide (m_monitorId m ≠ monitorId)
      then collect monitorId windowStart rest
      else match parseISO (m_timestamp m) with
           | None => collect monitorId windowStart rest
           | Some d =>
               if d <? windowStart then collect monitorId windowStart rest
               else (m, d) :: collect monitorId windowStart rest
           end
  end.

(** [typeof m.latency === 'number' ? m.latency : NaN], then the NaN filter. *)
Definition latencies_of (metrics : list Stamped) : list R :=
  omap (fun m => m_latency (fst m)) metrics.

Definition minuteKey (m : Stamped) : Z := (snd m / 60000) * 60000.

(** The per-minute buckets, a [Map<number, Metric[]>]. *)
Definition bucketize (metrics : list Stamped) : gmap Z (list Stamped) :=
  fold_left
    (fun buckets m =>
       let arr := default [] (buckets !! minuteKey m) in
       <[minuteKey m := arr ++ [m]]> buckets)
    metrics ∅.

Definition errorRate (arr : list Stamped) : R :=
  let failures :=
    length (filter (fun x => m_success (fst x) = Some false) arr) in
  if (0 <? length arr)%nat then (INR failures / INR (length arr))%R else 0%R.

Definition errorRates_of (metrics : list Stamped) : list R :=
  let buckets := bucketize metrics in
  let minuteKeys := sort_by (fun k => k) (map fst (map_to_list buckets)) in
  map (fun k => errorRate (default [] (buckets !! k))) minuteKeys.

(** The handler, given the clock [now] (ms) and the content of the
    'monitor-metrics' group: the returned result and the events emitted. *)
Definition handler (monitorId : string) (now : Z) (all : list Metric)
    : AnomalyResult * list Event :=
  let windowStart := now - 60 * 60 * 1000 in
  let metrics := collect monitorId windowStart all in
  match metrics with
  | [] => (NoMetrics, [])
  | _ =>
      let metrics := sort_by snd metrics in
      let latencies := latencies_of metrics in
      match latencies with
      | [] => (NoLatency, [])
      | _ =>
          let meanLat := mean latencies in
          let stdevLat := pstdev latencies in
          let latestLatency := default 0%R (last latencies) in
          let zLatency := zscore latestLatency meanLat stdevLat in
          let errorRates := errorRates_of metrics in
          let latestErrorRate := default 0%R (last errorRates) in
          let meanEr := mean errorRates in
          let stdevEr := pstdev errorRates in
          let zError := zscore latestErrorRate meanEr stdevEr in
          let sevLatency := severityFromZ zLatency in
          let sevError := severityFromZ zError in
          let severity := overall sevLatency sevError in
          let result :=
            mkDetail severity (length metrics)
              (mkStat latestLatency meanLat stdevLat zLatency)
              (mkStat latestErrorRate meanEr stdevEr zError) in
          (Detail result,
           if bool_decide (severity ≠ NORMAL)
           then [SEND_ALERT monitorId severity (Some (DiagAnomaly result))]
           else [])
      end
  end.
End Handler.

(** What a run of the detector amounts to when both z-scores are computed
    from a zero standard deviation. *)
Definition zero_scores_normal (r : AnomalyResult * list Event) : Prop :=
  ∃ d, r.1 = Detail d
       ∧ s_stdev (d_latency d) = 0%R ∧ s_z (d_latency d) = 0%R
       ∧ s_stdev (d_error_rate d) = 0%R ∧ s_z (d_error_rate d) = 0%R
       ∧ d_severity d = NORMAL
       ∧ r.2 = [].

(** Sample data: timestamps are written as decimal milliseconds. *)
Definition demo_parse (ts : string) : option Z :=
  if String.eqb ts "3600000" then Some 3600000
  else if String.eqb ts "3660000" then Some 3660000
  else None.

Definition sample_ok : Metric :=
  mkMetric "m1" "3600000" (Some 120%R) (Some 200) (Some true).

Definition sample_without_latency : Metric :=
  mkMetric "m1" "3600000" None (Some 200) (Some true).

(** Ten probes at 100 ms in one minute, then one at 500 ms in the next. *)
Definition steady : Metric :=
  mkMetric "m1" "3600000" (Some 100%R) (Some 200) (Some true).

Definition spike : Metric :=
  mkMetric "m1" "3660000" (Some 500%R) (Some 200) (Some true).

Definition spike_window : list Metric := replicate 10 steady ++ [spike].

Definition spike_latencies : list R := replicate 10 100%R ++ [500%R].

End CheckAnomaly.

(** ** Alert router: the SendAlert step *)

Module SendAlert.

(** The process-wide configuration read from [process.env]. *)
Record Env := mkEnv {
  EMAIL_API_URL : option string;
  EMAIL_API_KEY : option string;
  EMAIL_TO : option string;
  EMAIL_FROM : option string;
  MONITOR_WEBHOOK_URL : option string
}.

Record ContextPayload := mkPayload {
  cp_monitorId : string;
  cp_monitorUrl : option string;
  cp_failureDurationSeconds : option Z;
  cp_avgLatency : option R;
  cp_severity : Severity;
  cp_timestamp : string;
  cp_diagnostic : option Diagnostic
}.

(** The two kinds of [axios.post] the router issues. *)
Inductive Request :=
| EmailPost (url bearer to from subject text : string)
| WebhookPost (url : string) (payload : ContextPayload).

Inductive Level := Info | Warn | Error.

Inductive Effect :=
| Post (r : Request)
| Log (level : Level) (msg : string).

(** Effects with exceptions: the trace so far and the value, [None] when
    an exception is in flight. *)
Definition M (A : Type) : Type := list Effect * option A.

#[global] Instance M_ret : MRet M := λ A a, ([], Some a).

#[global] Instance M_bind : MBind M := λ A B k m,
  match m with
  | (t, Some a) => let '(t', r) := k a in (t ++ t', r)
  | (t, None) => (t, None)
  end.

Definition try_catch {A} (m : M A) (h : M A) : M A :=
  match m with
  | (t, None) => let '(t', r) := h in (t ++ t', r)
  | _ => m
  end.

Definition log (level : Level) (msg : string) : M unit :=
  ([Log level msg], Some tt).

Definition when (b : bool) (m : M unit) : M unit :=
  if b then m else mret tt.

(** The line feed of the template literals. *)
Definition nl : string := String (Ascii.ascii_of_nat 10) EmptyString.

(** The value of a string the code has just tested to be truthy. *)
Definition str (s : option string) : string := Js.nullish s "".

Section Handler.
(** Whether [axios.post] rejects the request (network error, non-2xx). *)
Variable post_fails : Request → bool.
Variable toISOString : Z → string.
Variable Date_parse : string → option Z.
(** Template-literal rendering of numbers and [JSON.stringify]. *)
Variable show_Z : Z → string.
Variable show_R : R → string.
Variable stringify : option Diagnostic → string.

Definition post (r : Request) : M unit :=
  ([Post r], if post_fails r then None else Some tt).

(** The context payload computed from the trailing 60 minutes. *)
Definition contextPayload (monitorId : string) (monitor : MonitorConfig)
    (severity : Severity) (diagnostic : option Diagnostic) (now : Z)
    (allMetrics : list Metric) : ContextPayload :=
  let windowStart := now - 60 * 60 * 1000 in
  let metrics :=
    CheckAnomaly.sort_by snd
      (CheckAnomaly.collect Date_parse monitorId windowStart allMetrics) in
  let latencies := CheckAnomaly.latencies_of metrics in
  let avgLatency :=
    match latencies with
    | [] => None
    | _ => Some (CheckAnomaly.mean latencies)
    end in
  let successes :=
    filter (fun m : CheckAnomaly.Stamped => m_success m.1 = Some true)
           metrics in
  let failureDurationSeconds :=
    match last successes with
    | Some lastSuccess => Some ((now - lastSuccess.2) / 1000)
    | None =>
        match metrics with
        | first :: _ => Some ((now - first.2) / 1000)
        | [] => None
        end
    end in
  mkPayload monitorId (mc_url monitor) failureDurationSeconds avgLatency
            severity (toISOString now) diagnostic.

(** The four email settings as the handler resolves them. *)
Definition emailApiUrl (env : Env) (monitor : MonitorConfig) : option string :=
  Js.or (EMAIL_API_URL env) (mc_emailApiUrl monitor).
Definition emailApiKey (env : Env) (monitor : MonitorConfig) : option string :=
  Js.or (EMAIL_API_KEY env) (mc_emailApiKey monitor).
Definition emailTo (env : Env) (monitor : MonitorConfig) : option string :=
  Js.or (mc_alertTo monitor) (EMAIL_TO env).
Definition emailFrom (env : Env) (monitor : MonitorConfig) : option string :=
  Js.or (EMAIL_FROM env) (mc_emailFrom monitor).
Definition webhookUrl (env : Env) (monitor : MonitorConfig) : option string :=
  Js.or (mc_alertWebhookUrl monitor) (MONITOR_WEBHOOK_URL env).

Definition email_configured (env : Env) (monitor : MonitorConfig) : bool :=
  Js.truthy (emailApiUrl env monitor) && Js.truthy (emailApiKey env monitor)
  && Js.truthy (emailTo env monitor) && Js.truthy (emailFrom env monitor).

Definition criticalText (p : ContextPayload) : string :=
  ("Monitor " ++ cp_monitorId p ++ " ("
   ++ Js.nullish (cp_monitorUrl p) "unknown URL"
   ++ ") reported CRITICAL at " ++ cp_timestamp p
   ++ nl ++ nl ++ "Failure duration (s): "
   ++ match cp_failureDurationSeconds p with
      | Some d => show_Z d | None => "unknown" end
   ++ nl ++ "Avg latency (ms): "
   ++ match cp_avgLatency p with
      | Some l => show_R l | None => "unknown" end
   ++ nl ++ nl ++ "Diagnostic: "
   ++ stringify (cp_diagnostic p))%string.

Definition recoveredText (p : ContextPayload) : string :=
  ("Monitor " ++ cp_monitorId p ++ " ("
   ++ Js.nullish (cp_monitorUrl p) "unknown URL"
   ++ ") recovered at " ++ cp_timestamp p)%string.

(** [if (severity === 'CRITICAL') { ... }] *)
Definition critical_email (env : Env) (monitor : MonitorConfig)
    (p : ContextPayload) : M unit :=
  if negb (email_configured env monitor) then
    log Warn
      "Email not sent: missing email configuration (no hardcoded credentials)."
  else
    post (EmailPost (str (emailApiUrl env monitor))
                    (str (emailApiKey env monitor))
                    (str (emailTo env monitor))
                    (str (emailFrom env monitor))
                    ("[CRITICAL] Monitor " ++ cp_monitorId p ++ " is down")
                    (criticalText p)) ;;
    log Info "Email alert sent (via EMAIL_API_URL)".

(** [if (severity === 'WARNING' || severity === 'CRITICAL') { ... }] *)
Definition webhook (env : Env) (monitor : MonitorConfig)
    (p : ContextPayload) : M unit :=
  if negb (Js.truthy (webhookUrl env monitor)) then
    log Warn "Webhook not sent: no webhook URL configured"
  else
    post (WebhookPost (str (webhookUrl env monitor)) p) ;;
    log Info "Webhook alert sent".

(** [if (severity === 'NORMAL') { ... }] *)
Definition recovery (env : Env) (monitor : MonitorConfig)
    (p : ContextPayload) : M unit :=
  let recovered :=
    match cp_diagnostic p with Some DiagRecovered => true | _ => false end in
  if recovered then
    (if email_configured env monitor then
       try_catch
         (post (EmailPost (str (emailApiUrl env monitor))
                          (str (emailApiKey env monitor))
                          (str (emailTo env monitor))
                          (str (emailFrom env monitor))
                          ("[RECOVERED] Monitor " ++ cp_monitorId p
                           ++ " recovered")
                          (recoveredText p)) ;;
          log Info "Recovery email sent")
         (log Warn "Failed to send recovery email")
     else log Info "Recovery email not sent: missing configuration") ;;
    (if negb (Js.truthy (webhookUrl env monitor)) then
       log Info "Recovery webhook not sent: no webhook URL configured"
     else
       try_catch
         (post (WebhookPost (str (webhookUrl env monitor)) p) ;;
          log Info "Recovery webhook sent")
         (log Warn "Failed to send recovery webhook"))
  else log Info "Severity NORMAL: no alert routed".

(** The handler: the trace of posts and log lines of one SEND_ALERT. *)
Definition handler (env : Env) (monitorId : string) (severity : Severity)
    (diagnostic : option Diagnostic) (now : Z) (st : Store)
    (allMetrics : list Metric) : list Effect :=
  fst
    (log Info "SendAlert handler started" ;;
     match monitors st !! monitorId with
     | None => log Warn "Monitor config not found for alert"
     | Some monitor =>
         let p :=
           contextPayload monitorId monitor severity diagnostic now
                          allMetrics in
         try_catch
           (when (bool_decide (severity = CRITICAL))
                 (critical_email env monitor p) ;;
            when (bool_decide (severity = WARNING ∨ severity = CRITICAL))
                 (webhook env monitor p) ;;
            when (bool_decide (severity = NORMAL)) (recovery env monitor p))
           (log Error "Error routing alert")
     end).
End Handler.

(** The email posts of a trace. *)
Definition is_email (e : Effect) : bool :=
  match e with Post (EmailPost _ _ _ _ _ _) => true | _ => false end.

(** The reading under which every email setting is taken from the
    monitor's own configuration first and from the process-wide default
    only when the monitor has none. *)
Definition monitor_first (env : Env) (monitor : MonitorConfig)
    (trace : list Effect) : Prop :=
  ∀ url bearer to from subject text,
    Post (EmailPost url bearer to from subject text) ∈ trace →
    Some url = Js.or (mc_emailApiUrl monitor) (EMAIL_API_URL env)
    ∧ Some bearer = Js.or (mc_emailApiKey monitor) (EMAIL_API_KEY env)
    ∧ Some to = Js.or (mc_alertTo monitor) (EMAIL_TO env)
    ∧ Some from = Js.or (mc_emailFrom monitor) (EMAIL_FROM env).

(** Sample configuration: the endpoint is set both process-wide and on
    the monitor. *)
Definition demo_env : Env :=
  mkEnv (Some "https://mail.env.example/send") (Some "env-key")
        (Some "ops@env.example") (Some "noreply@env.example") None.

Definition demo_monitor : MonitorConfig :=
  mkMonitor "m1" (Some "https://example.org/health") None (Some 3)
            (Some 5000) None (Some "oncall@monitor.example")
            (Some "alerts@monitor.example")
            (Some "https://mail.monitor.example/send") (Some "monitor-key")
            "2026-01-01T00:00:00.000Z".

Definition demo_store : Store :=
  mkStore {[ "m1"%string := demo_monitor ]} ∅ ∅ ∅.

Definition demo_trace : list Effect :=
  handler (fun _ => false) (fun _ => "2026-01-01T00:10:00.000Z")
          (fun _ => None) (fun _ => "0") (fun _ => "0") (fun _ => "{}")
          demo_env "m1" CRITICAL None 600000 demo_store [].

End SendAlert.

(** ** Registration endpoint: the CreateMonitorAPI step *)

Module MonitorsApi.

(** A parsed request body.  Numbers are the rationals that JSON literals
    denote; the keys of an object are distinct. *)
#[local] Unset Elimination Schemes.
Inductive Json :=
| JNull
| JBool (b : bool)
| JNum (q : Q)
| JStr (s : string)
| JArr (items : list Json)
| JObj (fields : list (string * Json)).
#[local] Set Elimination Schemes.

(** [data[key]], [None] for undefined. *)
Fixpoint field (key : string) (fields : list (string * Json)) : option Json :=
  match fields with
  | [] => None
  | (k, v) :: rest => if String.eqb k key then Some v else field key rest
  end.

(** The issues the schema can raise. *)
Inductive Issue :=
| Required
| ExpectedObject
| ExpectedString
| ExpectedNumber
| InvalidUrl
| ExpectedInteger
| NotPositive.

(** An issue with its path: [None] is the body itself, [Some f] a field. *)
Definition Issues : Type := list (option string * Issue).

(** [parsed.data]. *)
Record Input := mkInput {
  in_url : string;
  in_name : option string;
  in_failureThreshold : option Z;
  in_timeoutMs : option Z;
  in_alertWebhookUrl : option string;
  in_alertTo : option string;
  in_emailFrom : option string
}.

Definition is_integer (q : Q) : bool :=
  (Qnum q mod Zpos (Qden q) =? 0)%Z.

Definition is_positive (q : Q) : bool := (0 <? Qnum q)%Z.

Section Schema.
(** The URL check of [z.string().url()]. *)
Variable is_url : string → bool.

(** [z.string()] and [z.string().url()]. *)
Definition string_schema (url : bool) (v : Json) : list Issue + string :=
  match v with
  | JStr s => if url && negb (is_url s) then inl [InvalidUrl] else inr s
  | _ => inl [ExpectedString]
  end.

(** [z.number().int().positive()]: both checks report. *)
Definition posint_schema (v : Json) : list Issue + Z :=
  match v with
  | JNum q =>
      match (if is_integer q then [] else [ExpectedInteger])
            ++ (if is_positive q then [] else [NotPositive]) with
      | [] => inr (Qnum q / Zpos (Qden q))%Z
      | issues => inl issues
      end
  | _ => inl [ExpectedNumber]
  end.

Definition required {A} (schema : Json → list Issue + A) (v : option Json)
    : list Issue + A :=
  match v with
  | None => inl [Required]
  | Some j => schema j
  end.

Definition optional {A} (schema : Json → list Issue + A) (v : option Json)
    : list Issue + option A :=
  match v with
  | None => inr None
  | Some j =>
      match schema j with
      | inl issues => inl issues
      | inr a => inr (Some a)
      end
  end.

(** The issues of one field, tagged with its name. *)
Definition at_field {A} (name : string) (r : list Issue + A) : Issues :=
  match r with
  | inl issues => map (fun i => (Some name, i)) issues
  | inr _ => []
  end.

(** [inputSchema.safeParse(body)]. *)
Definition safeParse (body : option Json) : Issues + Input :=
  match body with
  | None => inl [(None, Required)]
  | Some (JObj fields) =>
      let url := required (string_schema true) (field "url" fields) in
      let name := optional (string_schema false) (field "name" fields) in
      let failureThreshold :=
        optional posint_schema (field "failureThreshold" fields) in
      let timeoutMs := optional posint_schema (field "timeoutMs" fields) in
      let alertWebhookUrl :=
        optional (string_schema true) (field "alertWebhookUrl" fields) in
      let alertTo := optional (string_schema false) (field "alertTo" fields) in
      let emailFrom :=
        optional (string_schema false) (field "emailFrom" fields) in
      match url, name, failureThreshold, timeoutMs, alertWebhookUrl,
            alertTo, emailFrom with
      | inr u, inr n, inr ft, inr tm, inr wh, inr to, inr from =>
          inr (mkInput u n ft tm wh to from)
      | _, _, _, _, _, _, _ =>
          inl (at_field "url" url ++ at_field "name" name
               ++ at_field "failureThreshold" failureThreshold
               ++ at_field "timeoutMs" timeoutMs
               ++ at_field "alertWebhookUrl" alertWebhookUrl
               ++ at_field "alertTo" alertTo
               ++ at_field "emailFrom" emailFrom)
      end
  | Some _ => inl [(None, ExpectedObject)]
  end.

Inductive ResponseBody :=
| Created (monitorId : string)               (* { monitorId } *)
| InvalidInput (details : Issues)   (* { error: 'invalid_input', details } *)
| InternalError.                    (* { error: 'internal_error' } *)

Record Response := mkResponse { status : Z; body : ResponseBody }.

(** The configuration object built from the parsed input. *)
Definition monitorConfig (monitorId : string) (data : Input)
    (createdAt : string) : MonitorConfig :=
  mkMonitor monitorId (Some (in_url data)) (in_name data)
            (Some (Js.nullish (in_failureThreshold data) 3))
            (Some (Js.nullish (in_timeoutMs data) 5000))
            (in_alertWebhookUrl data) (in_alertTo data) (in_emailFrom data)
            None None createdAt.

Definition set_monitor (k : string) (c : MonitorConfig) (st : Store) : Store :=
  mkStore (<[k := c]> (monitors st)) (monitor_metrics st)
          (monitor_failures st) (monitor_state st).

(** The handler.  [monitorId] is the value of [randomUUID()], [createdAt]
    the ISO time of the call, [set_throws] whether [state.set] throws. *)
Definition handler (request_body : option Json) (monitorId : string)
    (createdAt : string) (set_throws : bool) (st : Store)
    : Store * Response :=
  match safeParse request_body with
  | inl details => (st, mkResponse 400 (InvalidInput details))
  | inr data =>
      if set_throws then (st, mkResponse 500 InternalError)
      else (set_monitor monitorId (monitorConfig monitorId data createdAt) st,
            mkResponse 201 (Created monitorId))
  end.

(** The reading under which the caller sees success exactly on valid
    input and a validation error otherwise, and nothing else. *)
Definition only_validation_errors (request_body : option Json)
    (r : Response) : Prop :=
  (status r = 201 ↔ ∃ data, safeParse request_body = inr data)
  ∧ (status r = 400 ↔ ∃ details, safeParse request_body = inl details)
  ∧ (status r = 201 ∨ status r = 400).
End Schema.

(** Sample requests. *)
Definition demo_is_url (s : string) : bool :=
  String.prefix "https://" s || String.prefix "http://" s.

Definition demo_body : option Json :=
  Some (JObj [("url"%string, JStr "https://example.org/health")]).

Definition bad_body : option Json :=
  Some (JObj [("url"%string, JStr "not a url");
              ("failureThreshold"%string, JNum (Qmake (-3) 2))]).

Definition empty_store : Store := mkStore ∅ ∅ ∅ ∅.

End MonitorsApi.

(** ** Status streamer: the MonitorStatusSSE step *)

Module StatusApi.

(** A property of an event object: missing (or undefined, which
    [JSON.stringify] drops), [null], or a value. *)
Inductive Field (A : Type) :=
| Absent
| Null
| Val (a : A).
Arguments Absent {A}.
Arguments Null {A}.
Arguments Val {A} a.

Definition of_option {A} (o : option A) : Field A :=
  match o with Some a => Val a | None => Absent end.

(** [monitorId] is [params?.id ?? null]. *)
Definition of_nullable {A} (o : option A) : Field A :=
  match o with Some a => Val a | None => Null end.

(** The objects handed to [sendEvent]. *)
Record Payload := mkPayload {
  p_monitorId : Field string;
  p_timestamp : Field string;
  p_latency : Field R;
  p_statusCode : Field Z;
  p_success : Field bool;
  p_uptimePercent : Field R;
  p_empty : Field bool
}.

(** What is written to the raw response. *)
Inductive Chunk :=
| EventStatus            (* "event: status\n" *)
| Data (p : Payload)     (* `data: ${JSON.stringify(data)}\n\n` *)
| KeepAlive.             (* ": keep-alive\n\n" *)

(** The two interval callbacks. *)
Inductive Callback := KeepAliveCallback | PollCallback.

(** The connection: the variables of the handler's closure, followed by
    the part of the runtime they act on. *)
Record Conn := mkConn {
  closed : bool;
  pollInterval : option nat;
  keepAliveInterval : option nat;
  headers : list (string * string);
  flushed : bool;
  timers : gmap nat Callback;   (* the intervals that are running *)
  next_timer : nat;
  cleared : list nat;           (* the calls of clearInterval, in order *)
  written : list Chunk;         (* what reached the response *)
  writes : nat;                 (* calls of rawRes.write so far *)
  immediate_pending : bool;     (* the immediate poll awaits getGroup *)
  close_listener : bool;        (* rawReq.once('close', ...) is armed *)
  resolved : bool               (* the handler's promise is resolved *)
}.

Definition setInterval (cb : Callback) (c : Conn) : nat * Conn :=
  (next_timer c,
   mkConn (closed c) (pollInterval c) (keepAliveInterval c) (headers c)
          (flushed c) (<[next_timer c := cb]> (timers c)) (S (next_timer c))
          (cleared c) (written c) (writes c) (immediate_pending c)
          (close_listener c) (resolved c)).

Definition clearInterval (id : nat) (c : Conn) : Conn :=
  mkConn (closed c) (pollInterval c) (keepAliveInterval c) (headers c)
         (flushed c) (delete id (timers c)) (next_timer c)
         (cleared c ++ [id]) (written c) (writes c) (immediate_pending c)
         (close_listener c) (resolved c).

Definition set_closed (b : bool) (c : Conn) : Conn :=
  mkConn b (pollInterval c) (keepAliveInterval c) (headers c) (flushed c)
         (timers c) (next_timer c) (cleared c) (written c) (writes c)
         (immediate_pending c) (close_listener c) (resolved c).

Definition set_pollInterval (v : option nat) (c : Conn) : Conn :=
  mkConn (closed c) v (keepAliveInterval c) (headers c) (flushed c)
         (timers c) (next_timer c) (cleared c) (written c) (writes c)
         (immediate_pending c) (close_listener c) (resolved c).

Definition set_keepAliveInterval (v : option nat) (c : Conn) : Conn :=
  mkConn (closed c) (pollInterval c) v (headers c) (flushed c)
         (timers c) (next_timer c) (cleared c) (written c) (writes c)
         (immediate_pending c) (close_listener c) (resolved c).

(** [function cleanup()]. *)
Definition cleanup (c : Conn) : Conn :=
  if closed c then c
  else
    let c := set_closed true c in
    let c := match pollInterval c with
             | Some id => set_pollInterval None (clearInterval id c)
             | None => c
             end in
    match keepAliveInterval c with
    | Some id => set_keepAliveInterval None (clearInterval id c)
    | None => c
    end.

Section Handler.
(** Whether the n-th call of [rawRes.write] throws. *)
Variable write_throws : nat → bool.
Variable toISOString : Z → string.
(** [Date.parse], [None] for NaN. *)
Variable Date_parse : string → option Z.

(** [rawRes.write(chunk)]: the connection after the call and whether it
    threw. *)
Definition write (chunk : Chunk) (c : Conn) : Conn * bool :=
  let threw := write_throws (writes c) in
  (mkConn (closed c) (pollInterval c) (keepAliveInterval c) (headers c)
          (flushed c) (timers c) (next_timer c) (cleared c)
          (if threw then written c else written c ++ [chunk])
          (S (writes c)) (immediate_pending c) (close_listener c)
          (resolved c),
   threw).

Definition sendEvent (data : Payload) (c : Conn) : Conn :=
  let '(c, threw) := write EventStatus c in
  if threw then cleanup c
  else
    let '(c, threw) := write (Data data) c in
    if threw then cleanup c else c.

(** The first event. *)
Definition placeholder (monitorId : option string) (now : Z) : Payload :=
  mkPayload (Val (Js.nullish monitorId "")) (Val (toISOString now))
            Null Absent Null Null Absent.

(** The metrics of the monitor in the trailing 60 minutes, oldest first. *)
Fixpoint in_window (monitorId : option string) (cutoff : Z)
    (all : list Metric) : list (Metric * Z) :=
  match all with
  | [] => []
  | m :: rest =>
      if bool_decide (Some (m_monitorId m) = monitorId) then
        match Date_parse (m_timestamp m) with
        | Some t =>
            if cutoff <=? t then (m, t) :: in_window monitorId cutoff rest
            else in_window monitorId cutoff rest
        | None => in_window monitorId cutoff rest
        end
      else in_window monitorId cutoff rest
  end.

Definition relevant (monitorId : option string) (now : Z)
    (all : list Metric) : list (Metric * Z) :=
  CheckAnomaly.sort_by snd
    (in_window monitorId (now - 60 * 60 * 1000) all).

Definition uptime (rel : list (Metric * Z)) : R :=
  (INR (length (filter (fun r : Metric * Z => m_success r.1 = Some true) rel))
   / INR (length rel) * 100)%R.

Definition populated (monitorId : option string) (latest : Metric)
    (rel : list (Metric * Z)) : Payload :=
  mkPayload (of_nullable monitorId) (Val (m_timestamp latest))
            (of_option (m_latency latest)) (of_option (m_statusCode latest))
            (of_option (m_success latest)) (Val (uptime rel)) Absent.

Definition empty_event (monitorId : option string) (now : Z) : Payload :=
  mkPayload (of_nullable monitorId) (Val (toISOString now))
            Absent Absent Absent Absent (Val true).

(** The callback of the 3000 ms interval. *)
Definition keepAlive_tick (c : Conn) : Conn :=
  let '(c, threw) := write KeepAlive c in
  if threw then cleanup c else c.

(** The callback of the 2000 ms interval, with the clock and the content
    of the 'monitor-metrics' group it reads. *)
Definition poll_tick (monitorId : option string) (now : Z)
    (all : list Metric) (c : Conn) : Conn :=
  let rel := relevant monitorId now all in
  match last rel with
  | None => sendEvent (empty_event monitorId now) c
  | Some latest => sendEvent (populated monitorId latest.1 rel) c
  end.

(** The poll started right away by the handler. *)
Definition immediate_poll (monitorId : option string) (now : Z)
    (all : list Metric) (c : Conn) : Conn :=
  let rel := relevant monitorId now all in
  match last rel with
  | None => c
  | Some latest => sendEvent (populated monitorId latest.1 rel) c
  end.

Definition sse_headers : list (string * string) :=
  [("Content-Type", "text/event-stream"); ("Cache-Control", "no-cache");
   ("Connection", "keep-alive"); ("X-Accel-Buffering", "no");
   ("Access-Control-Allow-Origin", "*")]%string.

(** The synchronous part of the handler, up to the promise it returns.
    [supported] is the test on the raw request and response; without them
    the handler parks the request ([None]). *)
Definition setup (supported has_flushHeaders : bool)
    (monitorId : option string) (now : Z) : option Conn :=
  if negb supported then None
  else
    let c := mkConn false None None sse_headers has_flushHeaders ∅ 0 [] []
                    0 false false false in
    let c := sendEvent (placeholder monitorId now) c in
    let '(id, c) := setInterval KeepAliveCallback c in
    let c := set_keepAliveInterval (Some id) c in
    let '(id, c) := setInterval PollCallback c in
    let c := set_pollInterval (Some id) c in
    Some (mkConn (closed c) (pollInterval c) (keepAliveInterval c)
                 (headers c) (flushed c) (timers c) (next_timer c)
                 (cleared c) (written c) (writes c) true true false).

(** What can happen to an open connection. *)
Inductive Action :=
| Fire (id : nat) (now : Z) (all : list Metric)   (* an interval elapses *)
| ImmediatePoll (now : Z) (all : list Metric)     (* getGroup answers *)
| ClientClose.                                    (* 'close' on rawReq *)

(** One action; [None] when it cannot happen in this state. *)
Definition step (monitorId : option string) (a : Action) (c : Conn)
    : option Conn :=
  match a with
  | Fire id now all =>
      match timers c !! id with
      | Some KeepAliveCallback => Some (keepAlive_tick c)
      | Some PollCallback => Some (poll_tick monitorId now all c)
      | None => None
      end
  | ImmediatePoll now all =>
      if immediate_pending c then
        let c := immediate_poll monitorId now all c in
        Some (mkConn (closed c) (pollInterval c) (keepAliveInterval c)
                     (headers c) (flushed c) (timers c) (next_timer c)
                     (cleared c) (written c) (writes c) false
                     (close_listener c) (resolved c))
      else None
  | ClientClose =>
      if close_listener c then
        let c := cleanup c in
        Some (mkConn (closed c) (pollInterval c) (keepAliveInterval c)
                     (headers c) (flushed c) (timers c) (next_timer c)
                     (cleared c) (written c) (writes c)
                     (immediate_pending c) false true)
      else None
  end.

Fixpoint run (monitorId : option string) (trace : list Action) (c : Conn)
    : option Conn :=
  match trace with
  | [] => Some c
  | a :: trace' =>
      match step monitorId a c with
      | Some c' => run monitorId trace' c'
      | None => None
      end
  end.
End Handler.

(** The reading under which every metric field of the first event is
    null. *)
Definition all_metric_fields_null (p : Payload) : Prop :=
  p_success p = Null ∧ p_latency p = Null ∧ p_statusCode p = Null
  ∧ p_timestamp p = Null ∧ p_uptimePercent p = Null.

(** The two intervals of a connection, as [setup] numbers them. *)
Definition both_timers : gmap nat Callback :=
  <[1%nat := PollCallback]> (<[0%nat := KeepAliveCallback]> ∅).

(** A chunk that is not a first event: its uptime is not null. *)
Definition later_chunk (ch : Chunk) : Prop :=
  match ch with
  | Data p => p_uptimePercent p ≠ Null
  | _ => True
  end.

(** The part of a connection that decides which intervals run. *)
Definition control (c : Conn)
    : bool * option nat * option nat * gmap nat Callback * list nat :=
  (closed c, pollInterval c, keepAliveInterval c, timers c, cleared c).

(** A connection is either streaming, with both intervals running and
    never cleared, or torn down, with no interval left and each of the two
    cleared once. *)
Definition streaming (c : Conn) : Prop :=
  control c = (false, Some 1%nat, Some 0%nat, both_timers, []).

Definition torn_down (c : Conn) : Prop :=
  control c = (true, None, None, ∅, [1%nat; 0%nat]).

(** A connection that counts as closed while both intervals still run. *)
Definition leaking (c : Conn) : Prop :=
  control c = (true, Some 1%nat, Some 0%nat, both_timers, []).

(** Sample runs. *)
Definition demo_iso (t : Z) : string := "2026-01-01T00:00:00.000Z".
Definition never_throws (n : nat) : bool := false.
Definition first_write_throws (n : nat) : bool := (n =? 0)%nat.

(** The response and the interval bookkeeping after a connection has gone
    through a sequence of actions. *)
Definition demo_session (write_throws : nat → bool) (trace : list Action)
    : option (list Chunk * gmap nat Callback * list nat) :=
  c0 ← setup write_throws demo_iso true true (Some "m1"%string) 0;
  c ← run write_throws demo_iso (fun _ => None) (Some "m1"%string) trace c0;
  Some (written c, timers c, cleared c).

End StatusApi.

(** ** Probe dispatcher: the PingMonitorsCron step *)

Module PingMonitorsCron.

(** An entry of the 'monitors' group as the cron step reads it: it only
    looks at [m?.id] and [m?.monitorId]. *)
Record Listed := mkListed {
  l_id : option string;
  l_monitorId : option string
}.

(** [m?.id ?? m?.monitorId]. *)
Definition resolve (m : Listed) : option string :=
  match l_id m with
  | Some i => Some i
  | None => l_monitorId m
  end.

(** The loop over the monitors: one PING_MONITOR per entry with an id. *)
Fixpoint dispatch (monitors : list Listed) : list Event :=
  match monitors with
  | [] => []
  | m :: rest =>
      match resolve m with
      | Some monitorId =>
          if negb (Js.truthy (Some monitorId)) then dispatch rest
          else PING_MONITOR monitorId :: dispatch rest
      | None => dispatch rest
      end
  end.

(** The handler, given what [state.getGroup('monitors')] answers; [None]
    is a missing group. *)
Definition handler (monitors : option (list Listed)) : list Event :=
  match monitors with
  | None => []
  | Some [] => []
  | Some ms => dispatch ms
  end.

(** How a configuration stored by the creation endpoint is listed. *)
Definition listed_of (c : MonitorConfig) : Listed :=
  mkListed (Some (mc_id c)) None.

(** [state.getGroup('monitors')] on the store. *)
Definition getGroup (st : Store) : option (list Listed) :=
  Some (listed_of <$> (map_to_list (monitors st)).*2).

Definition demo_listing : list Listed :=
  [mkListed (Some "a") None; mkListed None None;
   mkListed None (Some "b"); mkListed (Some "") (Some "c")]%string.

End PingMonitorsCron.

(** ** The alert automaton the pipeline is compared with

    The state of an outage as two numbers: the count of consecutive
    failures and whether an outage is open.  A success closes the outage
    and clears the count; a failure counts, and opens the outage with one
    down-alert when the count reaches the threshold. *)

Module Outage.



End Outage.

(** ** The requests of a routing trace *)

Module Routing.
Import SendAlert.

(** The [axios.post] calls of a trace, in order. *)
Definition posts (trace : list Effect) : list Request :=
  omap (fun e => match e with Post r => Some r | Log _ _ => None end) trace.

(** The email request of a recovery notice. *)
Definition recovery_email (env : Env) (monitor : MonitorConfig)
    (p : ContextPayload) : Request :=
  EmailPost (str (emailApiUrl env monitor)) (str (emailApiKey env monitor))
            (str (emailTo env monitor)) (str (emailFrom env monitor))
            ("[RECOVERED] Monitor " ++ cp_monitorId p ++ " recovered")
            (recoveredText p).

(** An environment with a process-wide webhook and no email settings. *)
Definition hooked_env : Env :=
  mkEnv None None None None (Some "https://hooks.env.example/alerts").

Definition demo_handler (env : Env) (severity : Severity)
    (diagnostic : option Diagnostic) (fails : Request → bool)
    : list Effect :=
  handler fails (fun _ => "2026-01-01T00:10:00.000Z") (fun _ => None)
          (fun _ => "0") (fun _ => "0") (fun _ => "{}")
          env "m1" severity diagnostic 600000 demo_store [].

Definition demo_payload (severity : Severity)
    (diagnostic : option Diagnostic) : ContextPayload :=
  contextPayload (fun _ => "2026-01-01T00:10:00.000Z") (fun _ => None)
                 "m1" demo_monitor severity diagnostic 600000 [].

End Routing.

(** ** The samples of one minute *)

Module Buckets.

(** The samples of a window that fall into the minute starting at [k],
    in the order of the window. *)
Definition bucket_of (k : Z) (metrics : list CheckAnomaly.Stamped)
    : list CheckAnomaly.Stamped :=
  filter (fun m => CheckAnomaly.minuteKey m = k) metrics.

(** The failed samples of a bucket. *)
Definition failures_in (arr : list CheckAnomaly.Stamped)
    : list CheckAnomaly.Stamped :=
  filter (fun x => m_success x.1 = Some false) arr.

End Buckets.

(** ** The page script: escaping of the monitored URL *)

Module Frontend.

(** [s.replace(/c/g, entity)] for a single character [c]. *)
Fixpoint replace_all (c : Ascii.ascii) (entity : string) (s : string) : string :=
  match s with
  | EmptyString => EmptyString
  | String a rest =>
      if Ascii.eqb a c then (entity ++ replace_all c entity rest)%string
      else String a (replace_all c entity rest)
  end.

Definition c_amp : Ascii.ascii := Ascii.ascii_of_nat 38.
Definition c_lt : Ascii.ascii := Ascii.ascii_of_nat 60.
Definition c_gt : Ascii.ascii := Ascii.ascii_of_nat 62.
Definition c_quot : Ascii.ascii := Ascii.ascii_of_nat 34.
Definition c_apos : Ascii.ascii := Ascii.ascii_of_nat 39.

Definition escapeHtml (str : string) : string :=
  replace_all c_apos "&#39;"
    (replace_all c_quot "&quot;"
       (replace_all c_gt "&gt;"
          (replace_all c_lt "&lt;"
             (replace_all c_amp "&amp;" str)))).

(** The characters of a string. *)
Fixpoint chars (s : string) : list Ascii.ascii :=
  match s with
  | EmptyString => []
  | String a rest => a :: chars rest
  end.

End Frontend.

(** ** Framing of the event stream *)

Module Framing.
Import StatusApi.

(** A connection that is streaming and has written nothing yet. *)
Definition idle : Conn :=
  mkConn false (Some 1%nat) (Some 0%nat) sse_headers true both_timers 2
         [] [] 0 false true false.

(** The sample connection after its setup, and after a sequence of
    actions. *)
Definition opened (write_throws : nat → bool) : Conn :=
  default idle
    (setup write_throws demo_iso true true (Some "m1"%string) 0).

Definition reached (write_throws : nat → bool) (trace : list Action)
    : Conn :=
  default idle
    (run write_throws demo_iso (fun _ => None) (Some "m1"%string) trace
         (opened write_throws)).

(** A response made of whole events, events cut short by a failed write,
    and keep-alive comments. *)
Inductive Framed : list Chunk → Prop :=
| framed_nil : Framed []
| framed_event p rest : Framed rest → Framed (EventStatus :: Data p :: rest)
| framed_cut rest : Framed rest → Framed (EventStatus :: rest)
| framed_keepalive rest : Framed rest → Framed (KeepAlive :: rest).

End Framing.


(** * Properties *)

(** ** Probe classification *)

Module PingMonitorFacts.
Import PingMonitor.

Lemma classify_success (o : AxiosOutcome) :
  snd (classify o) = true ↔ ∃ status, o = Resolved status ∧ status < 400.
Proof.
  destruct o as [status|rs]; simpl.
  - rewrite Z.ltb_lt. split.
    + intros H. exists status. split; [reflexivity|exact H].
    + intros (s & Heq & Hlt). injection Heq as ->. exact Hlt.
  - split; [discriminate|]. intros (s & Heq & _). discriminate.
Qed.

Lemma handler_metric (toISOString : Z → string) monitorId o ck st monitor :
  monitors st !! monitorId = Some monitor →
  Js.truthy (mc_url monitor) = true →
  (PingMonitor.handler toISOString monitorId o ck st).2
  = Some (build_metric toISOString monitorId o ck).
Proof.
  intros Hm Hu. unfold handler. rewrite Hm, Hu. simpl.
  destruct (record_and_transition _ _ _ _ _ _). reflexivity.
Qed.

Lemma record_and_transition_metrics monitorId thr success metric ck st :
  monitor_metrics (record_and_transition monitorId thr success metric ck st).1
  = <[(monitorId, t_key ck) := metric]> (monitor_metrics st).
Proof.
  unfold record_and_transition.
  repeat (case_bool_decide || case_match || simplify_eq/= || reflexivity).
Qed.

(** C6.  The metric recorded by a probe has [success = true] exactly when
    the request resolved with a response whose status is below 400; a
    status of 400 or more, and every rejected request (transport error,
    timeout), is recorded with [success = false]; a rejection without a
    response is recorded with [statusCode = 0]. *)
Theorem probe_success_iff_response_below_400
    (toISOString : Z → string) (monitorId : string) (o : AxiosOutcome)
    (ck : Clock) (st : Store) (monitor : MonitorConfig) :
  monitors st !! monitorId = Some monitor →
  Js.truthy (mc_url monitor) = true →
  ∃ metric statusCode success,
    (PingMonitor.handler toISOString monitorId o ck st).2 = Some metric
    ∧ monitor_metrics (PingMonitor.handler toISOString monitorId o ck st).1.1
        !! (monitorId, t_key ck) = Some metric
    ∧ m_statusCode metric = Some statusCode
    ∧ m_success metric = Some success
    ∧ (success = true ↔ ∃ status, o = Resolved status ∧ status < 400)
    ∧ (400 ≤ statusCode → success = false)
    ∧ (∀ rs, o = Rejected rs → success = false)
    ∧ (o = Rejected None → statusCode = 0).
Proof.
  intros Hm Hu.
  exists (build_metric toISOString monitorId o ck),
         (classify o).1, (classify o).2.
  split; [by apply handler_metric with monitor|].
  split.
  { unfold handler. rewrite Hm, Hu. simpl.
    pose proof (record_and_transition_metrics monitorId
      (Js.nullish (mc_failureThreshold monitor) 3) (classify o).2
      (build_metric toISOString monitorId o ck) ck st) as Hrec.
    destruct (record_and_transition _ _ _ _ _ _) as [st' ev]. simpl in *.
    rewrite Hrec. apply lookup_insert_eq. }
  unfold build_metric.
  destruct o as [status|[rs|]]; simpl; repeat split; try discriminate;
    try (intros; reflexivity).
  - rewrite Z.ltb_lt. intros H. by exists status.
  - intros (s & Heq & Hlt). injection Heq as ->. by apply Z.ltb_lt.
  - intros H. apply Z.ltb_ge. exact H.
  - intros (s & Heq & _). discriminate.
  - intros (s & Heq & _). discriminate.
Qed.

Lemma probe_success_iff_response_below_400_witness :
  let st := Pipeline.demo_store ∅ ∅ in
  let o := Rejected None in
  let ck := mkClock 0 0 12 13 in
  ∃ metric statusCode success,
    (PingMonitor.handler Pipeline.demo_iso "m1" o ck st).2 = Some metric
    ∧ monitor_metrics (PingMonitor.handler Pipeline.demo_iso "m1" o ck st).1.1
        !! ("m1"%string, t_key ck) = Some metric
    ∧ m_statusCode metric = Some statusCode
    ∧ m_success metric = Some success
    ∧ (success = true ↔ ∃ status, o = Resolved status ∧ status < 400)
    ∧ (400 ≤ statusCode → success = false)
    ∧ (∀ rs, o = Rejected rs → success = false)
    ∧ (o = Rejected None → statusCode = 0).
Proof.
  intros st o ck.
  apply (probe_success_iff_response_below_400 Pipeline.demo_iso "m1" o ck st
           Pipeline.demo_monitor); reflexivity.
Defined.

(** The classification on the usual outcomes. *)
Example classify_200 : classify (Resolved 200) = (200, true).
Proof. reflexivity. Qed.

Example classify_399 : classify (Resolved 399) = (399, true).
Proof. reflexivity. Qed.

Example classify_400 : classify (Resolved 400) = (400, false).
Proof. reflexivity. Qed.

Example classify_timeout : classify (Rejected None) = (0, false).
Proof. reflexivity. Qed.

End PingMonitorFacts.

(** ** The alert state machine under consecutive failures *)

Module PipelineFacts.
Import PingMonitor Pipeline.

Section Facts.
Variable toISOString : Z → string.

Lemma probe_failed_step monitorId p st monitor :
  monitors st !! monitorId = Some monitor →
  Js.truthy (mc_url monitor) = true →
  failed p →
  let st' := (probe toISOString monitorId p st).1 in
  let out := (probe toISOString monitorId p st).2 in
  monitors st' = monitors st
  ∧ failures_of monitorId st' = failures_of monitorId st + 1
  ∧ (threshold_of monitor ≤ failures_of monitorId st + 1 →
     ¬ outage_open monitorId st →
     monitor_state st' !! monitorId = Some ALERTED
     ∧ out = [down_alert monitorId])
  ∧ (threshold_of monitor ≤ failures_of monitorId st + 1 →
     outage_open monitorId st →
     monitor_state st' !! monitorId = monitor_state st !! monitorId
     ∧ out = [])
  ∧ (failures_of monitorId st + 1 < threshold_of monitor →
     monitor_state st' !! monitorId = monitor_state st !! monitorId
     ∧ out = []).
Proof.
  intros Hm Hu Hf. unfold failed in Hf.
  unfold probe, handler, record_and_transition, threshold_of, failures_of,
    outage_open.
  rewrite Hm, Hu, Hf. simpl.
  destruct (Z.leb_spec (Js.nullish (mc_failureThreshold monitor) 3)
              (Js.nullish (monitor_failures st !! monitorId) 0 + 1))
    as [Hle|Hlt].
  - case_bool_decide as Hst; simpl.
    + unfold MonitorState.handler. simpl. rewrite lookup_insert_eq.
      rewrite bool_decide_eq_false_2 by discriminate. simpl.
      rewrite !lookup_insert_eq. simpl.
      repeat split; try done; try lia;
        intros; exfalso; destruct Hst; intuition congruence.
    + simpl. rewrite lookup_insert_eq. simpl.
      repeat split; try done; try lia;
        intros; exfalso; apply Hst; intuition congruence.
  - simpl. rewrite lookup_insert_eq. simpl.
    repeat split; try done; lia.
Qed.

(** The executor alone on a failed probe: the counter goes up by one, and
    MONITOR_DOWN is emitted, with the state set to DOWN, exactly when the
    threshold is reached and no outage is open; nothing else is emitted. *)
Lemma handler_failed_step monitorId p st monitor :
  monitors st !! monitorId = Some monitor →
  Js.truthy (mc_url monitor) = true →
  failed p →
  let st' := (handler toISOString monitorId p.1 p.2 st).1.1 in
  let evs := (handler toISOString monitorId p.1 p.2 st).1.2 in
  monitors st' = monitors st
  ∧ failures_of monitorId st' = failures_of monitorId st + 1
  ∧ (threshold_of monitor ≤ failures_of monitorId st + 1 →
     ¬ outage_open monitorId st →
     monitor_state st' !! monitorId = Some DOWN
     ∧ evs = [MONITOR_DOWN monitorId])
  ∧ (outage_open monitorId st
     ∨ failures_of monitorId st + 1 < threshold_of monitor →
     monitor_state st' !! monitorId = monitor_state st !! monitorId
     ∧ evs = []).
Proof.
  intros Hm Hu Hf. unfold failed in Hf.
  unfold handler, record_and_transition, threshold_of, failures_of,
    outage_open.
  rewrite Hm, Hu, Hf. simpl.
  destruct (Z.leb_spec (Js.nullish (mc_failureThreshold monitor) 3)
              (Js.nullish (monitor_failures st !! monitorId) 0 + 1))
    as [Hle|Hlt].
  - case_bool_decide as Hst; simpl; rewrite !lookup_insert_eq; simpl.
    + repeat split; try done;
        exfalso; destruct Hst; intuition (congruence || lia).
    + repeat split; try done;
        intros; exfalso; apply Hst; intuition congruence.
  - simpl. rewrite lookup_insert_eq. simpl.
    repeat split; try done; lia.
Qed.

Lemma run_cons monitorId p ps st :
  run toISOString monitorId (p :: ps) st
  = ((run toISOString monitorId ps (probe toISOString monitorId p st).1).1,
     (probe toISOString monitorId p st).2
     ++ (run toISOString monitorId ps (probe toISOString monitorId p st).1).2).
Proof.
  simpl. destruct (probe toISOString monitorId p st) as [st1 out1]. simpl.
  destruct (run toISOString monitorId ps st1) as [st2 out2]. reflexivity.
Qed.

Lemma run_app monitorId ps ps' st :
  run toISOString monitorId (ps ++ ps') st
  = ((run toISOString monitorId ps' (run toISOString monitorId ps st).1).1,
     (run toISOString monitorId ps st).2
     ++ (run toISOString monitorId ps' (run toISOString monitorId ps st).1).2).
Proof.
  revert st. induction ps as [|p ps IH]; intros st.
  - simpl. by destruct (run toISOString monitorId ps' st).
  - rewrite <- app_comm_cons, !run_cons, IH. simpl. by rewrite app_assoc.
Qed.

(** While the outage is open (DOWN or ALERTED) failed probes are silent and
    leave the outage open. *)
Lemma open_outage_is_silent monitorId ps st monitor :
  monitors st !! monitorId = Some monitor →
  Js.truthy (mc_url monitor) = true →
  Forall failed ps →
  outage_open monitorId st →
  (run toISOString monitorId ps st).2 = []
  ∧ outage_open monitorId (run toISOString monitorId ps st).1.
Proof.
  intros Hm Hu Hps. revert st Hm.
  induction Hps as [|p ps Hp Hps IH]; intros st Hm Hopen; [done|].
  rewrite run_cons. simpl.
  destruct (probe_failed_step monitorId p st monitor Hm Hu Hp)
    as (Hmon & _ & _ & Hge & Hlt).
  assert (monitor_state (probe toISOString monitorId p st).1 !! monitorId
          = monitor_state st !! monitorId
          ∧ (probe toISOString monitorId p st).2 = []) as [Hst Hout].
  { destruct (Z.le_gt_cases (threshold_of monitor)
                (failures_of monitorId st + 1));
      [by apply Hge|apply Hlt; lia]. }
  rewrite Hout. simpl. apply IH.
  - by rewrite Hmon.
  - unfold outage_open. by rewrite Hst.
Qed.

(** C1.  Starting with no open outage, consecutive failed probes make the
    pipeline emit exactly one CRITICAL SEND_ALERT, at the probe with which
    the failure counter reaches the threshold, and none before; once it is
    emitted, further consecutive failures emit nothing. *)
Theorem consecutive_failures_alert_once
    (monitorId : string) (ps : list (AxiosOutcome * Clock)) (st : Store)
    (monitor : MonitorConfig) :
  monitors st !! monitorId = Some monitor →
  Js.truthy (mc_url monitor) = true →
  Forall failed ps →
  ¬ outage_open monitorId st →
  (run toISOString monitorId ps st).2
  = (if bool_decide
          (ps ≠ []
           ∧ threshold_of monitor
             ≤ failures_of monitorId st + Z.of_nat (length ps))
     then [SEND_ALERT monitorId CRITICAL None] else [])
  ∧ ∀ more, Forall failed more →
      ps ≠ [] →
      threshold_of monitor
      ≤ failures_of monitorId st + Z.of_nat (length ps) →
      (run toISOString monitorId more
         (run toISOString monitorId ps st).1).2 = [].
Proof.
  intros Hm Hu Hps Hclosed.
  assert (∀ qs st0, Forall failed qs →
            monitors st0 !! monitorId = Some monitor →
            ¬ outage_open monitorId st0 →
            (run toISOString monitorId qs st0).2
            = (if bool_decide
                    (qs ≠ []
                     ∧ threshold_of monitor
                       ≤ failures_of monitorId st0 + Z.of_nat (length qs))
               then [SEND_ALERT monitorId CRITICAL None] else [])) as Hone.
  { intros qs st0 Hqs. revert st0.
    induction Hqs as [|p qs Hp Hqs IH]; intros st0 Hm0 Hcl0.
    - reflexivity.
    - rewrite run_cons. simpl snd.
      destruct (probe_failed_step monitorId p st0 monitor Hm0 Hu Hp)
        as (Hmon & Hcnt & Hfire & _ & Hlt).
      destruct (Z.le_gt_cases (threshold_of monitor)
                  (failures_of monitorId st0 + 1)) as [Hge|Hsmall].
      + destruct (Hfire Hge Hcl0) as [Hst Hout]. rewrite Hout.
        destruct (open_outage_is_silent monitorId qs
                    (probe toISOString monitorId p st0).1 monitor) as [-> _];
          [by rewrite Hmon|done|done|by right|].
        rewrite bool_decide_eq_true_2; [done|].
        split; [done|]. simpl length. lia.
      + destruct (Hlt ltac:(lia)) as [Hst Hout]. rewrite Hout. simpl.
        rewrite IH; [|by rewrite Hmon|unfold outage_open; by rewrite Hst].
        rewrite Hcnt.
        erewrite bool_decide_ext; [reflexivity|].
        destruct qs as [|q qs]; simpl length;
          split; intros [H1 H2]; split; try done; lia. }
  split; [by apply Hone|].
  intros more Hmore Hne Hreach.
  pose proof (Hone (ps ++ more) st (Forall_app_2 _ _ _ Hps Hmore) Hm Hclosed)
    as Hall.
  rewrite run_app in Hall. simpl in Hall.
  rewrite (Hone ps st Hps Hm Hclosed) in Hall.
  rewrite bool_decide_eq_true_2 in Hall by done.
  rewrite bool_decide_eq_true_2 in Hall.
  - by injection Hall.
  - split; [by destruct ps|]. rewrite length_app. lia.
Qed.

(** With deferred delivery the outage still goes through its phases in
    order, so the down-alert is sent at most once, whenever the bus
    chooses to deliver. *)
Lemma move_phase monitorId m b monitor :
  monitors (bus_store b) !! monitorId = Some monitor →
  Js.truthy (mc_url monitor) = true →
  failed_move m →
  Phase monitorId b →
  monitors (bus_store (move toISOString monitorId b m)) !! monitorId
  = Some monitor
  ∧ Phase monitorId (move toISOString monitorId b m).
Proof.
  intros Hm Hu Hf Hph. destruct m as [p|]; simpl in *.
  - destruct (handler_failed_step monitorId p (bus_store b) monitor Hm Hu Hf)
      as (Hmon & _ & Hfire & Hkeep).
    destruct (handler toISOString monitorId p.1 p.2 (bus_store b))
      as [[st' evs] metric]. simpl in *.
    split; [by rewrite Hmon|].
    destruct Hph as [Hcl Hp Hs|Hst Hp Hs|Hst Hp Hs].
    + destruct (Z.le_gt_cases (threshold_of monitor)
                  (failures_of monitorId (bus_store b) + 1)) as [Hge|Hlt].
      * destruct (Hfire Hge Hcl) as [Hst' ->].
        apply Waiting; simpl; [done|by rewrite Hp|done].
      * destruct (Hkeep (or_intror Hlt)) as [Hst' ->].
        apply Quiet; simpl; [|by rewrite Hp|done].
        unfold outage_open in *. by rewrite Hst'.
    + destruct (Hkeep (or_introl (or_introl Hst))) as [Hst' ->].
      apply Waiting; simpl; [by rewrite Hst'|by rewrite Hp|done].
    + destruct (Hkeep (or_introl (or_intror Hst))) as [Hst' ->].
      apply Alerted; simpl; [by rewrite Hst'|by rewrite Hp|done].
  - destruct Hph as [Hcl Hp Hs|Hst Hp Hs|Hst Hp Hs]; rewrite Hp.
    + split; [done|]. by apply Quiet.
    + simpl. unfold MonitorState.handler. rewrite Hst.
      rewrite bool_decide_eq_false_2 by discriminate. simpl.
      split; [done|].
      apply Alerted; simpl; [apply lookup_insert_eq|done|by rewrite Hs].
    + split; [done|]. by apply Alerted.
Qed.

Lemma deferred_delivery_alerts_at_most_once monitorId ms st monitor :
  monitors st !! monitorId = Some monitor →
  Js.truthy (mc_url monitor) = true →
  Forall failed_move ms →
  ¬ outage_open monitorId st →
  Phase monitorId (moves toISOString monitorId ms (mkBus st [] [])).
Proof.
  intros Hm Hu Hms Hcl.
  assert (∀ b, monitors (bus_store b) !! monitorId = Some monitor →
               Phase monitorId b →
               Phase monitorId (moves toISOString monitorId ms b)) as Hgen.
  { induction Hms as [|m ms Hmv Hms IH]; intros b Hb Hph; [done|].
    simpl. destruct (move_phase monitorId m b monitor Hb Hu Hmv Hph).
    by apply IH. }
  apply Hgen; [done|]. by apply Quiet.
Qed.

(** The recovery handler on its own does send the recovery notice when it
    finds the outage still open. *)
Lemma handlerRecovered_notifies monitorId st :
  outage_open monitorId st →
  (MonitorState.handlerRecovered monitorId st).2
  = [SEND_ALERT monitorId NORMAL (Some DiagRecovered)].
Proof.
  intros Hopen. unfold MonitorState.handlerRecovered.
  rewrite bool_decide_eq_false_2; [done|].
  destruct Hopen as [H|H]; rewrite H; intros [?|?]; discriminate.
Qed.

(** C2.  What the pipeline does on the success that ends an outage: the
    executor has already written UP when the recovery handler runs, so the
    handler takes the stale-signal branch and no SEND_ALERT is emitted; the
    counter is 0 and the state UP afterwards. *)
Theorem recovery_probe_emits_no_alert
    (monitorId : string) (p : AxiosOutcome * Clock) (st : Store)
    (monitor : MonitorConfig) :
  monitors st !! monitorId = Some monitor →
  Js.truthy (mc_url monitor) = true →
  snd (classify (fst p)) = true →
  outage_open monitorId st →
  (probe toISOString monitorId p st).2 = []
  ∧ failures_of monitorId (probe toISOString monitorId p st).1 = 0
  ∧ monitor_state (probe toISOString monitorId p st).1 !! monitorId = Some UP.
Proof.
  intros Hm Hu Hs Hopen.
  unfold probe, handler, record_and_transition, failures_of.
  rewrite Hm, Hu, Hs. simpl.
  assert (bool_decide (monitor_state st !! monitorId = Some DOWN
                       ∨ monitor_state st !! monitorId = Some ALERTED)
          = true) as Hdec by (by apply bool_decide_eq_true_2).
  destruct (bool_decide (Js.nullish (monitor_failures st !! monitorId) 0 ≠ 0))
    eqn:Hprev; simpl; rewrite Hdec; simpl;
    unfold MonitorState.handlerRecovered; simpl;
    rewrite lookup_insert_eq;
    (rewrite bool_decide_eq_true_2 by (by right)); simpl;
    rewrite !lookup_insert_eq; try rewrite lookup_insert_eq; simpl.
  - done.
  - split; [done|]. split; [|done].
    destruct (monitor_failures st !! monitorId) as [n|] eqn:Hn; simpl in *;
      [|done]. apply bool_decide_eq_false in Hprev.
    destruct (decide (n = 0)); [done|]. by destruct Hprev.
Qed.

End Facts.

(** Scenario A on the demo monitor (threshold 3): three refused
    connections produce exactly one CRITICAL SEND_ALERT, a fourth failure
    (a 503) produces none. *)
Lemma consecutive_failures_alert_once_witness :
  let st := demo_store ∅ ∅ in
  let ps := [refused 0; refused 60000; refused 120000] in
  (run demo_iso "m1" ps st).2 = [SEND_ALERT "m1" CRITICAL None]
  ∧ (run demo_iso "m1" [answered 503 180000] (run demo_iso "m1" ps st).1).2
    = [].
Proof.
  intros st ps.
  destruct (consecutive_failures_alert_once demo_iso "m1" ps st demo_monitor)
    as [Hone Hmore].
  - reflexivity.
  - reflexivity.
  - repeat constructor.
  - intros [H|H]; vm_compute in H; discriminate.
  - split.
    + exact Hone.
    + apply Hmore; [repeat constructor|discriminate|vm_compute; discriminate].
Defined.

(** Scenario B on the demo monitor: ALERTED with three failures counted,
    then a 200. *)
Lemma recovery_probe_emits_no_alert_witness :
  let st := demo_store {[ "m1"%string := 3 ]} {[ "m1"%string := ALERTED ]} in
  (probe demo_iso "m1" (answered 200 240000) st).2 = []
  ∧ failures_of "m1" (probe demo_iso "m1" (answered 200 240000) st).1 = 0
  ∧ monitor_state (probe demo_iso "m1" (answered 200 240000) st).1 !! "m1"
    = Some UP.
Proof.
  intros st.
  apply (recovery_probe_emits_no_alert demo_iso "m1" (answered 200 240000) st
           demo_monitor).
  - reflexivity.
  - reflexivity.
  - reflexivity.
  - right. reflexivity.
Defined.

End PipelineFacts.

(** ** The anomaly detector *)

Module CheckAnomalyFacts.
Import CheckAnomaly.

Lemma severityFromZ_critical (z : R) :
  severityFromZ z = CRITICAL ↔ (3 < Rabs z)%R.
Proof.
  unfold severityFromZ. destruct (Rlt_dec 3 (Rabs z)) as [H|H].
  - tauto.
  - destruct (Rlt_dec 2 (Rabs z)); split; (discriminate || tauto).
Qed.

Lemma severityFromZ_warning (z : R) :
  severityFromZ z = WARNING ↔ (2 < Rabs z ∧ Rabs z <= 3)%R.
Proof.
  unfold severityFromZ. destruct (Rlt_dec 3 (Rabs z)) as [H|H].
  - split; [discriminate|]. intros [_ ?]. lra.
  - destruct (Rlt_dec 2 (Rabs z)) as [H2|H2].
    + split; [intros _; split; lra|reflexivity].
    + split; [discriminate|]. intros [? _]. lra.
Qed.

Lemma severityFromZ_normal (z : R) :
  severityFromZ z = NORMAL ↔ (Rabs z <= 2)%R.
Proof.
  unfold severityFromZ. destruct (Rlt_dec 3 (Rabs z)) as [H|H].
  - split; [discriminate|]. lra.
  - destruct (Rlt_dec 2 (Rabs z)) as [H2|H2].
    + split; [discriminate|]. lra.
    + split; [lra|reflexivity].
Qed.

Lemma overall_more_severe (a b : Severity) : overall a b = more_severe a b.
Proof. by destruct a, b. Qed.

(** C4.  Each z-score maps to CRITICAL above 3 in absolute value, to
    WARNING above 2 and up to 3, to NORMAL otherwise, and the severity of
    every result of the detector is the more severe of the severities of
    its latency z-score and its error-rate z-score. *)
Theorem severity_of_z_scores :
  (∀ z : R,
     (severityFromZ z = CRITICAL ↔ (3 < Rabs z)%R)
     ∧ (severityFromZ z = WARNING ↔ (2 < Rabs z ∧ Rabs z <= 3)%R)
     ∧ (severityFromZ z = NORMAL ↔ ¬ (2 < Rabs z)%R))
  ∧ (∀ (Date_parse : string → option Z) (monitorId : string) (now : Z)
       (all : list Metric),
       match (handler Date_parse monitorId now all).1 with
       | Detail d =>
           d_severity d
           = more_severe (severityFromZ (s_z (d_latency d)))
                         (severityFromZ (s_z (d_error_rate d)))
       | NoMetrics | NoLatency => True
       end).
Proof.
  split.
  - intros z. split; [apply severityFromZ_critical|].
    split; [apply severityFromZ_warning|].
    rewrite severityFromZ_normal. split; lra.
  - intros Date_parse monitorId now all. unfold handler.
    destruct (collect _ _ _ _) as [|x xs]; [done|].
    destruct (latencies_of _) as [|v vs]; [done|].
    simpl. by rewrite overall_more_severe.
Qed.

(** *** A window with one sample *)

Lemma mean_singleton (v : R) : mean [v] = v.
Proof. unfold mean. simpl. field. Qed.

Lemma pstdev_singleton (v : R) : pstdev [v] = 0%R.
Proof.
  unfold pstdev. rewrite mean_singleton. simpl.
  replace ((0 + (v - v) * (v - v)) / 1)%R with 0%R by field.
  apply sqrt_0.
Qed.

Lemma zscore_zero_stdev (value mu : R) : zscore value mu 0 = 0%R.
Proof. unfold zscore. destruct (Rlt_dec 0 0) as [H|H]; [lra|reflexivity]. Qed.

Lemma severityFromZ_zero : severityFromZ 0 = NORMAL.
Proof. apply severityFromZ_normal. rewrite Rabs_R0. lra. Qed.

(** *** The sort keeps the elements *)

Lemma insert_by_perm {A} (key : A → Z) (x : A) (l : list A) :
  insert_by key x l ≡ₚ x :: l.
Proof.
  induction l as [|y l IH]; simpl; [done|].
  destruct (key x <=? key y)%Z; [done|].
  rewrite IH. apply Permutation_swap.
Qed.

Lemma sort_by_perm {A} (key : A → Z) (l : list A) : sort_by key l ≡ₚ l.
Proof.
  induction l as [|x l IH]; simpl; [done|].
  by rewrite insert_by_perm, IH.
Qed.

Lemma insert_by_sorted {A} (key : A → Z) (x : A) (l : list A) :
  Sorted (λ a b, key a ≤ key b)%Z l →
  Sorted (λ a b, key a ≤ key b)%Z (insert_by key x l).
Proof.
  induction 1 as [|y l Hl IH Hhd]; simpl; [by repeat constructor|].
  destruct (Z.leb_spec (key x) (key y)) as [Hle|Hgt].
  - constructor; [by constructor|by constructor].
  - constructor; [exact IH|].
    destruct Hhd as [|z l Hz]; simpl.
    + constructor. lia.
    + destruct (key x <=? key z)%Z; constructor; [lia|exact Hz].
Qed.

(** The model of [sort] does sort by the key. *)
Lemma sort_by_sorted {A} (key : A → Z) (l : list A) :
  Sorted (λ a b, key a ≤ key b)%Z (sort_by key l).
Proof.
  induction l as [|x l IH]; simpl; [constructor|by apply insert_by_sorted].
Qed.

Lemma omap_all_none {A B} (f : A → option B) (l : list A) :
  (∀ x, x ∈ l → f x = None) → omap f l = [].
Proof.
  induction l as [|x l IH]; intros H; simpl; [done|].
  rewrite (H x) by apply list_elem_of_here.
  apply IH. intros y Hy. apply H. by apply list_elem_of_further.
Qed.

#[local] Arguments mean : simpl never.
#[local] Arguments pstdev : simpl never.
#[local] Arguments zscore : simpl never.
#[local] Arguments severityFromZ : simpl never.
#[local] Arguments errorRates_of : simpl never.
#[local] Arguments errorRate : simpl never.

Section Window.
Variable Date_parse : string → option Z.

Lemma errorRates_of_singleton (x : Stamped) :
  errorRates_of [x] = [errorRate [x]].
Proof.
  unfold errorRates_of, bucketize. simpl.
  rewrite lookup_empty. simpl.
  rewrite insert_empty, map_to_list_singleton. simpl.
  by rewrite lookup_singleton_eq.
Qed.

(** C5 (as amended).  When the window holds exactly one sample and that
    sample carries a latency, both standard deviations and both z-scores
    are 0, the severity is NORMAL and nothing is emitted. *)
Theorem single_sample_with_latency_is_normal
    (monitorId : string) (now : Z) (all : list Metric)
    (m : Metric) (ts : Z) (v : R) :
  collect Date_parse monitorId (now - 60 * 60 * 1000) all = [(m, ts)] →
  m_latency m = Some v →
  zero_scores_normal (handler Date_parse monitorId now all).
Proof.
  intros Hwin Hlat. unfold handler. rewrite Hwin. simpl sort_by.
  unfold latencies_of. simpl omap. rewrite Hlat. simpl.
  rewrite errorRates_of_singleton. simpl.
  rewrite !mean_singleton, !pstdev_singleton, !zscore_zero_stdev.
  rewrite severityFromZ_zero. simpl.
  eexists. repeat split; reflexivity.
Qed.

(** C10.  A window that is not empty but holds no sample with a latency
    gives the result NORMAL with reason no_latency and emits nothing; the
    result carries no z-score. *)
Theorem window_without_latency_is_normal
    (monitorId : string) (now : Z) (all : list Metric) :
  collect Date_parse monitorId (now - 60 * 60 * 1000) all ≠ [] →
  (∀ x, x ∈ collect Date_parse monitorId (now - 60 * 60 * 1000) all →
        m_latency x.1 = None) →
  handler Date_parse monitorId now all = (NoLatency, [])
  ∧ result_severity (handler Date_parse monitorId now all).1 = NORMAL
  ∧ result_reason (handler Date_parse monitorId now all).1
    = Some "no_latency"%string.
Proof.
  intros Hne Hnone.
  assert (handler Date_parse monitorId now all = (NoLatency, [])) as ->.
  { unfold handler.
    destruct (collect Date_parse monitorId (now - 60 * 60 * 1000) all)
      as [|x xs] eqn:Hc; [done|].
    unfold latencies_of. rewrite omap_all_none; [done|].
    intros y Hy. apply Hnone. by rewrite <- (sort_by_perm snd (x :: xs)). }
  done.
Qed.

End Window.

Lemma window_without_latency_is_normal_witness :
  handler demo_parse "m1" 3630000 [sample_without_latency] = (NoLatency, [])
  ∧ result_severity
      (handler demo_parse "m1" 3630000 [sample_without_latency]).1 = NORMAL
  ∧ result_reason (handler demo_parse "m1" 3630000 [sample_without_latency]).1
    = Some "no_latency"%string.
Proof.
  apply (window_without_latency_is_normal demo_parse "m1" 3630000
           [sample_without_latency]).
  - discriminate.
  - intros x Hx. apply list_elem_of_singleton in Hx. by subst x.
Defined.

Lemma single_sample_with_latency_is_normal_witness :
  zero_scores_normal (handler demo_parse "m1" 3630000 [sample_ok]).
Proof.
  apply (single_sample_with_latency_is_normal demo_parse "m1" 3630000
           [sample_ok] sample_ok 3600000 120%R); reflexivity.
Defined.

(** C5 as stated fails on a window whose only sample has no latency: the
    detector returns the no_latency result, which has no statistics. *)
Lemma single_sample_without_latency_counterexample :
  collect demo_parse "m1" (3630000 - 60 * 60 * 1000) [sample_without_latency]
  = [(sample_without_latency, 3600000)]
  ∧ ¬ zero_scores_normal
        (handler demo_parse "m1" 3630000 [sample_without_latency]).
Proof.
  split; [reflexivity|]. intros (d & Hd & _). discriminate Hd.
Qed.

(** *** A latency spike on a healthy monitor

    All probes succeed, the last one is five times slower than the ten
    before it: the latency z-score is above 3 and a CRITICAL alert is
    requested. *)

Lemma spike_mean : mean spike_latencies = (1500 / 11)%R.
Proof. unfold mean. simpl. lra. Qed.

Lemma spike_variance :
  (fold_left (fun s v => s + (v - 1500 / 11) * (v - 1500 / 11))
             spike_latencies 0
   / INR (length spike_latencies))%R = (1600000 / 121)%R.
Proof. simpl. lra. Qed.

Lemma spike_zscore :
  (3 < zscore 500 (mean spike_latencies) (pstdev spike_latencies))%R.
Proof.
  unfold pstdev. change (replicate 10 100%R ++ [500%R]) with spike_latencies.
  cbv zeta. rewrite spike_mean.
  assert (match spike_latencies with
          | [] => 0%R
          | _ => sqrt (fold_left
                         (fun s v => s + (v - 1500 / 11) * (v - 1500 / 11))
                         spike_latencies 0
                       / INR (length spike_latencies))%R
          end = sqrt (1600000 / 121)) as ->.
  { rewrite <- spike_variance. reflexivity. }
  set (s := sqrt (1600000 / 121)).
  assert (0 < s)%R as Hpos by (apply sqrt_lt_R0; lra).
  assert (s < 4000 / 33)%R as Hlt.
  { replace (4000 / 33)%R with (sqrt ((4000 / 33) * (4000 / 33))).
    - apply sqrt_lt_1_alt. lra.
    - apply sqrt_square. lra. }
  unfold zscore. destruct (Rlt_dec 0 s) as [_|Hn]; [|contradiction].
  apply Rmult_lt_reg_r with s; [exact Hpos|].
  unfold Rdiv. rewrite Rmult_assoc, Rinv_l by lra. lra.
Qed.

Lemma overall_critical_l (s : Severity) : overall CRITICAL s = CRITICAL.
Proof. by destruct s. Qed.

Example latency_spike_is_critical :
  ∃ d, handler demo_parse "m1" 3690000 spike_window
       = (Detail d, [SEND_ALERT "m1" CRITICAL (Some (DiagAnomaly d))]).
Proof.
  unfold handler.
  assert (collect demo_parse "m1" (3690000 - 60 * 60 * 1000) spike_window
          = map (fun m => (m, 3600000%Z)) (replicate 10 steady)
            ++ [(spike, 3660000%Z)]) as -> by reflexivity.
  assert (sort_by snd (map (fun m => (m, 3600000%Z)) (replicate 10 steady)
                       ++ [(spike, 3660000%Z)])
          = map (fun m => (m, 3600000%Z)) (replicate 10 steady)
            ++ [(spike, 3660000%Z)]) as -> by reflexivity.
  simpl app at 1. cbv match beta iota.
  change (latencies_of _) with spike_latencies.
  unfold spike_latencies at 1. simpl app at 1. cbv match beta iota.
  change (default 0%R (last spike_latencies)) with 500%R.
  assert (severityFromZ
            (zscore 500 (mean spike_latencies) (pstdev spike_latencies))
          = CRITICAL) as ->.
  { apply severityFromZ_critical.
    pose proof spike_zscore as Hz. rewrite Rabs_pos_eq; lra. }
  rewrite overall_critical_l.
  rewrite bool_decide_eq_true_2 by discriminate.
  eexists. reflexivity.
Qed.

End CheckAnomalyFacts.

(** ** The alert router *)

Module SendAlertFacts.
Import SendAlert.

(** Membership in a trace that has been computed. *)
Ltac in_trace :=
  repeat (first [apply list_elem_of_here | apply list_elem_of_further]).

Ltac not_in_trace H :=
  repeat (apply elem_of_cons in H as [H|H]; [discriminate H|]);
  by apply elem_of_nil in H.

Section Facts.
Variable post_fails : Request → bool.
Variable toISOString : Z → string.
Variable Date_parse : string → option Z.
Variable show_Z : Z → string.
Variable show_R : R → string.
Variable stringify : option Diagnostic → string.

Abbreviation handler :=
  (handler post_fails toISOString Date_parse show_Z show_R stringify).
Abbreviation contextPayload := (contextPayload toISOString Date_parse).

Lemma email_configured_iff env monitor :
  email_configured env monitor = true
  ↔ Js.truthy (Js.or (EMAIL_API_URL env) (mc_emailApiUrl monitor)) = true
    ∧ Js.truthy (Js.or (EMAIL_API_KEY env) (mc_emailApiKey monitor)) = true
    ∧ Js.truthy (Js.or (mc_alertTo monitor) (EMAIL_TO env)) = true
    ∧ Js.truthy (Js.or (EMAIL_FROM env) (mc_emailFrom monitor)) = true.
Proof.
  unfold email_configured, emailApiUrl, emailApiKey, emailTo, emailFrom.
  rewrite !andb_true_iff. tauto.
Qed.

(** A setting resolved by [a || b] is truthy exactly when one of the two
    sources is. *)
Lemma truthy_or (a b : option string) :
  Js.truthy (Js.or a b) = Js.truthy a || Js.truthy b.
Proof. unfold Js.or. by destruct (Js.truthy a) eqn:Ha; simpl. Qed.

(** C3 (as amended).  For a CRITICAL alert on a known monitor the email is
    posted exactly when endpoint, credential, recipient and sender all
    resolve to a non-empty value, where endpoint, credential and sender are
    taken from the process-wide environment first and from the monitor's
    configuration otherwise, and the recipient from the monitor first and
    from the environment otherwise; the post carries the resolved values.
    When one of the four is missing from both sources no email is posted,
    a warning is logged, and the webhook dispatch still takes place. *)
Theorem critical_email_dispatch
    (env : Env) (monitorId : string) (diagnostic : option Diagnostic)
    (now : Z) (st : Store) (allMetrics : list Metric)
    (monitor : MonitorConfig) :
  monitors st !! monitorId = Some monitor →
  let trace := handler env monitorId CRITICAL diagnostic now st allMetrics in
  let p :=
    contextPayload monitorId monitor CRITICAL diagnostic now allMetrics in
  let url := Js.or (EMAIL_API_URL env) (mc_emailApiUrl monitor) in
  let key := Js.or (EMAIL_API_KEY env) (mc_emailApiKey monitor) in
  let to := Js.or (mc_alertTo monitor) (EMAIL_TO env) in
  let from := Js.or (EMAIL_FROM env) (mc_emailFrom monitor) in
  let configured :=
    Js.truthy url && Js.truthy key && Js.truthy to && Js.truthy from in
  (configured = true →
     ∃ u k t f,
       url = Some u ∧ key = Some k ∧ to = Some t ∧ from = Some f
       ∧ filter is_email trace
         = [Post (EmailPost u k t f
                    ("[CRITICAL] Monitor " ++ monitorId ++ " is down")
                    (criticalText show_Z show_R stringify p))])
  ∧ (configured = false →
     filter is_email trace = []
     ∧ Log Warn
         "Email not sent: missing email configuration (no hardcoded credentials)."
       ∈ trace
     ∧ (Log Error "Error routing alert" ∈ trace →
        ∃ w, post_fails (WebhookPost w p) = true)
     ∧ (Js.truthy (webhookUrl env monitor) = true →
        ∃ w, webhookUrl env monitor = Some w ∧ Post (WebhookPost w p) ∈ trace)
     ∧ (Js.truthy (webhookUrl env monitor) = false →
        Log Warn "Webhook not sent: no webhook URL configured" ∈ trace)).
Proof.
  intros Hm trace p url key to from configured.
  assert (email_configured env monitor = configured) as Hcfg by reflexivity.
  subst trace. unfold SendAlert.handler. rewrite Hm.
  fold p. unfold critical_email, webhook. rewrite Hcfg.
  destruct configured eqn:Hc; simpl.
  - split; [intros _|discriminate].
    subst configured. rewrite !andb_true_iff in Hc.
    destruct Hc as [[[Hu Hk] Ht] Hf].
    destruct url as [u|] eqn:Eu; [|discriminate].
    destruct key as [k|] eqn:Ek; [|discriminate].
    destruct to as [t|] eqn:Et; [|discriminate].
    destruct from as [f|] eqn:Ef; [|discriminate].
    exists u, k, t, f. repeat split.
    unfold emailApiUrl, emailApiKey, emailTo, emailFrom.
    fold url key to from. rewrite Eu, Ek, Et, Ef. simpl.
    destruct (post_fails (EmailPost _ _ _ _ _ _)); simpl; [reflexivity|].
    destruct (Js.truthy (webhookUrl env monitor)); simpl; [|reflexivity].
    by destruct (post_fails (WebhookPost _ _)).
  - split; [discriminate|intros _].
    destruct (Js.truthy (webhookUrl env monitor)) eqn:Hw; simpl.
    + destruct (webhookUrl env monitor) as [w|] eqn:Ew; [|discriminate].
      simpl.
      destruct (post_fails (WebhookPost w p)) eqn:Hpost; simpl;
        (split; [reflexivity|]); (split; [in_trace|]);
        (split; [intros Herr; first [by exists w|not_in_trace Herr]|]);
        (split; [intros _; exists w; split; [done|in_trace]|discriminate]).
    + split; [reflexivity|]. split; [in_trace|].
      split; [|split; [discriminate|intros _; in_trace]].
      intros Herr. not_in_trace Herr.
Qed.

End Facts.

Lemma critical_email_dispatch_witness :
  let p :=
    contextPayload (fun _ => "2026-01-01T00:10:00.000Z") (fun _ => None)
                   "m1" demo_monitor CRITICAL None 600000 [] in
  ∃ u k t f,
    Js.or (EMAIL_API_URL demo_env) (mc_emailApiUrl demo_monitor) = Some u
    ∧ Js.or (EMAIL_API_KEY demo_env) (mc_emailApiKey demo_monitor) = Some k
    ∧ Js.or (mc_alertTo demo_monitor) (EMAIL_TO demo_env) = Some t
    ∧ Js.or (EMAIL_FROM demo_env) (mc_emailFrom demo_monitor) = Some f
    ∧ filter is_email demo_trace
      = [Post (EmailPost u k t f "[CRITICAL] Monitor m1 is down"
                 (criticalText (fun _ => "0") (fun _ => "0") (fun _ => "{}")
                               p))].
Proof.
  intros p.
  destruct (critical_email_dispatch (fun _ => false)
              (fun _ => "2026-01-01T00:10:00.000Z") (fun _ => None)
              (fun _ => "0") (fun _ => "0") (fun _ => "{}")
              demo_env "m1" None 600000 demo_store [] demo_monitor eq_refl)
    as [Hsent _].
  apply Hsent. reflexivity.
Defined.

(** C3 as stated fails: with the endpoint set both process-wide and on the
    monitor, the email goes to the process-wide endpoint. *)
Lemma email_settings_not_monitor_first_counterexample :
  ¬ monitor_first demo_env demo_monitor demo_trace.
Proof.
  intros H. unfold monitor_first in H.
  remember demo_trace as trace eqn:E. vm_compute in E. subst trace.
  edestruct H as [Hurl _].
  { apply list_elem_of_further, list_elem_of_here. }
  vm_compute in Hurl. discriminate Hurl.
Qed.

End SendAlertFacts.

(** ** The registration endpoint *)

Module MonitorsApiFacts.
Import MonitorsApi.

Section Facts.
Variable is_url : string → bool.

Lemma string_schema_issues url v l :
  string_schema is_url url v = inl l → l ≠ [].
Proof.
  destruct v; simpl; try (intros [= <-]; discriminate).
  destruct (url && negb (is_url s)); intros [= <-]; discriminate.
Qed.

Lemma posint_schema_issues v l : posint_schema v = inl l → l ≠ [].
Proof.
  destruct v; simpl; try (intros [= <-]; discriminate).
  destruct (is_integer q), (is_positive q); simpl; intros [= <-]; discriminate.
Qed.

Lemma required_issues {A} (schema : Json → list Issue + A) v l :
  (∀ j l', schema j = inl l' → l' ≠ []) →
  required schema v = inl l → l ≠ [].
Proof.
  intros Hs. destruct v as [j|]; simpl; [apply Hs|].
  intros [= <-]. discriminate.
Qed.

Lemma optional_issues {A} (schema : Json → list Issue + A) v l :
  (∀ j l', schema j = inl l' → l' ≠ []) →
  optional schema v = inl l → l ≠ [].
Proof.
  intros Hs. destruct v as [j|]; simpl; [|discriminate].
  destruct (schema j) as [l'|a] eqn:E; [|discriminate].
  intros [= <-]. by apply Hs with j.
Qed.

Lemma optional_omitted {A} (schema : Json → list Issue + A) a :
  optional schema None = inr a → a = None.
Proof. simpl. by intros [= <-]. Qed.

(** A failed parse always reports at least one issue. *)
Lemma safeParse_issues request_body details :
  safeParse is_url request_body = inl details → details ≠ [].
Proof.
  destruct request_body as [[| | | | |fields]|]; simpl;
    try (intros [= <-]; discriminate).
  pose proof (required_issues (string_schema is_url true)
                (field "url" fields)) as H1.
  pose proof (optional_issues (string_schema is_url false)
                (field "name" fields)) as H2.
  pose proof (optional_issues posint_schema
                (field "failureThreshold" fields)) as H3.
  pose proof (optional_issues posint_schema (field "timeoutMs" fields)) as H4.
  pose proof (optional_issues (string_schema is_url true)
                (field "alertWebhookUrl" fields)) as H5.
  pose proof (optional_issues (string_schema is_url false)
                (field "alertTo" fields)) as H6.
  pose proof (optional_issues (string_schema is_url false)
                (field "emailFrom" fields)) as H7.
  destruct (required _ _) as [l1|?];
    [specialize (H1 l1 (string_schema_issues true) eq_refl)|clear H1];
  (destruct (optional _ (field "name" fields)) as [l2|?];
    [specialize (H2 l2 (string_schema_issues false) eq_refl)|clear H2]);
  (destruct (optional _ (field "failureThreshold" fields)) as [l3|?];
    [specialize (H3 l3 posint_schema_issues eq_refl)|clear H3]);
  (destruct (optional _ (field "timeoutMs" fields)) as [l4|?];
    [specialize (H4 l4 posint_schema_issues eq_refl)|clear H4]);
  (destruct (optional _ (field "alertWebhookUrl" fields)) as [l5|?];
    [specialize (H5 l5 (string_schema_issues true) eq_refl)|clear H5]);
  (destruct (optional _ (field "alertTo" fields)) as [l6|?];
    [specialize (H6 l6 (string_schema_issues false) eq_refl)|clear H6]);
  (destruct (optional _ (field "emailFrom" fields)) as [l7|?];
    [specialize (H7 l7 (string_schema_issues false) eq_refl)|clear H7]);
  try discriminate; intros [= <-]; simpl;
  repeat match goal with
         | H : ?l ≠ [] |- _ => destruct l; [by destruct H|clear H]
         end; discriminate.
Qed.

(** An omitted optional number is absent from the parsed data. *)
Lemma safeParse_omitted fields data :
  safeParse is_url (Some (JObj fields)) = inr data →
  (field "failureThreshold" fields = None → in_failureThreshold data = None)
  ∧ (field "timeoutMs" fields = None → in_timeoutMs data = None).
Proof.
  simpl. intros Hparse.
  split; intros Hnone; rewrite Hnone in Hparse; simpl in Hparse;
    repeat match type of Hparse with
           | context [match ?r with inl _ => _ | inr _ => _ end] =>
               destruct r; try discriminate Hparse
           end;
    by injection Hparse as <-.
Qed.

(** C7 (as amended).  The handler answers 201 with [{monitorId}] exactly
    when the body passes the schema and the configuration could be stored;
    the stored configuration then has failureThreshold 3 and timeoutMs 5000
    where the body omitted them.  It answers 400 with a non-empty list of
    issues exactly when the body fails the schema, and 500 internal_error
    exactly when the body is valid and the store write throws; there is no
    other answer. *)
Theorem creation_responses
    (request_body : option Json) (monitorId createdAt : string)
    (set_throws : bool) (st : Store) :
  let r := handler is_url request_body monitorId createdAt set_throws st in
  (status r.2 = 201
   ↔ (∃ data, safeParse is_url request_body = inr data) ∧ set_throws = false)
  ∧ (status r.2 = 201 →
     body r.2 = Created monitorId
     ∧ ∃ data,
         safeParse is_url request_body = inr data
         ∧ monitors r.1 !! monitorId
           = Some (monitorConfig monitorId data createdAt)
         ∧ mc_failureThreshold (monitorConfig monitorId data createdAt)
           = Some (Js.nullish (in_failureThreshold data) 3)
         ∧ mc_timeoutMs (monitorConfig monitorId data createdAt)
           = Some (Js.nullish (in_timeoutMs data) 5000)
         ∧ ∀ fields, request_body = Some (JObj fields) →
             (field "failureThreshold" fields = None →
              mc_failureThreshold (monitorConfig monitorId data createdAt)
              = Some 3)
             ∧ (field "timeoutMs" fields = None →
                mc_timeoutMs (monitorConfig monitorId data createdAt)
                = Some 5000))
  ∧ (status r.2 = 400
     ↔ ∃ details, safeParse is_url request_body = inl details)
  ∧ (status r.2 = 400 →
     ∃ details, body r.2 = InvalidInput details
                ∧ safeParse is_url request_body = inl details
                ∧ details ≠ [] ∧ r.1 = st)
  ∧ (status r.2 = 500
     ↔ (∃ data, safeParse is_url request_body = inr data) ∧ set_throws = true)
  ∧ (status r.2 = 500 → body r.2 = InternalError ∧ r.1 = st)
  ∧ (status r.2 = 201 ∨ status r.2 = 400 ∨ status r.2 = 500).
Proof.
  unfold handler.
  destruct (safeParse is_url request_body) as [details|data] eqn:Hparse.
  - simpl. repeat split; try discriminate; try (intros [[? [=]] _]).
    + by exists details.
    + intros _. exists details. repeat split.
      by apply safeParse_issues with request_body.
    + by right; left.
  - destruct set_throws; simpl.
    + repeat split; try discriminate; try (intros [? [=]]);
        try (intros [_ [=]]); [by exists data|by right; right].
    + repeat split; try discriminate; try (intros [? [=]]);
        try (intros [_ [=]]); [by exists data| |by left].
      exists data. split; [done|]. split.
      { unfold set_monitor. simpl. apply lookup_insert_eq. }
      split; [done|]. split; [done|].
      intros fields ->. destruct (safeParse_omitted fields data Hparse)
        as [Hft Htm].
      split; intros Hnone; simpl; [by rewrite Hft|by rewrite Htm].
Qed.

End Facts.

(** C7 as stated fails when the store write throws: a valid body is then
    answered with 500, which is neither the success nor a validation
    error. *)
Lemma valid_body_store_failure_counterexample :
  ¬ only_validation_errors demo_is_url demo_body
      (handler demo_is_url demo_body "1f0e" "2026-01-01T00:00:00.000Z" true
               empty_store).2.
Proof.
  intros (_ & _ & [H|H]); vm_compute in H; discriminate H.
Qed.

Example safeParse_demo_body :
  safeParse demo_is_url demo_body
  = inr (mkInput "https://example.org/health" None None None None None None).
Proof. reflexivity. Qed.

Example safeParse_bad_body :
  safeParse demo_is_url bad_body
  = inl [(Some "url"%string, InvalidUrl);
         (Some "failureThreshold"%string, ExpectedInteger);
         (Some "failureThreshold"%string, NotPositive)].
Proof. reflexivity. Qed.

Example handler_demo_body :
  (handler demo_is_url demo_body "1f0e" "2026-01-01T00:00:00.000Z" false
           empty_store).2
  = mkResponse 201 (Created "1f0e").
Proof. reflexivity. Qed.

End MonitorsApiFacts.

(** ** The status streamer *)

Module StatusApiFacts.
Import StatusApi.

Section Facts.
Variable write_throws : nat → bool.
Variable toISOString : Z → string.
Variable Date_parse : string → option Z.

Abbreviation sendEvent := (sendEvent write_throws).
Abbreviation setup := (setup write_throws toISOString).
Abbreviation step := (step write_throws toISOString Date_parse).
Abbreviation run := (run write_throws toISOString Date_parse).

(** *** Cleanup *)

Lemma cleanup_when_closed c : closed c = true → cleanup c = c.
Proof. intros Hc. unfold cleanup. by rewrite Hc. Qed.

Lemma cleanup_closed c : closed (cleanup c) = true.
Proof. destruct c as [[] [?|] [?|]]; reflexivity. Qed.

Lemma cleanup_idempotent c : cleanup (cleanup c) = cleanup c.
Proof. apply cleanup_when_closed, cleanup_closed. Qed.

Lemma cleanup_written c : written (cleanup c) = written c.
Proof. destruct c as [[] [?|] [?|]]; reflexivity. Qed.

Lemma cleanup_streaming c : streaming c → torn_down (cleanup c).
Proof.
  destruct c as [cl po ka ? ? tm ? clr]. unfold streaming, torn_down, control.
  simpl. intros [= -> -> -> -> ->]. reflexivity.
Qed.

(** *** Writes *)

Lemma write_control chunk c :
  control (write write_throws chunk c).1 = control c.
Proof. reflexivity. Qed.

Lemma write_written chunk c :
  written (write write_throws chunk c).1
  = if (write write_throws chunk c).2 then written c
    else written c ++ [chunk].
Proof. reflexivity. Qed.

Lemma cleanup_control_eq c c' :
  control c' = control c → control (cleanup c') = control (cleanup c).
Proof.
  destruct c as [cl po ka ? ? tm ? clr], c' as [cl' po' ka' ? ? tm' ? clr'].
  unfold control. simpl. intros [= -> -> -> -> ->].
  destruct cl, po, ka; reflexivity.
Qed.

(** An event either goes out whole, or the write failure runs the cleanup;
    nothing but the two chunks of the event is written. *)
Lemma sendEvent_spec data c :
  (control (sendEvent data c) = control c
   ∨ control (sendEvent data c) = control (cleanup c))
  ∧ ∃ extra, written (sendEvent data c) = written c ++ extra
             ∧ (extra = [] ∨ extra = [EventStatus]
                ∨ extra = [EventStatus; Data data]).
Proof.
  unfold StatusApi.sendEvent.
  destruct (write write_throws EventStatus c) as [c1 t1] eqn:E1.
  pose proof (write_control EventStatus c) as Hc1.
  pose proof (write_written EventStatus c) as Hw1.
  rewrite E1 in Hc1, Hw1. simpl in Hc1, Hw1.
  destruct t1.
  - split; [right; by apply cleanup_control_eq|].
    exists []. rewrite cleanup_written, Hw1, app_nil_r. auto.
  - destruct (write write_throws (Data data) c1) as [c2 t2] eqn:E2.
    pose proof (write_control (Data data) c1) as Hc2.
    pose proof (write_written (Data data) c1) as Hw2.
    rewrite E2 in Hc2, Hw2. simpl in Hc2, Hw2.
    destruct t2.
    + split; [right; apply cleanup_control_eq; congruence|].
      exists [EventStatus]. rewrite cleanup_written, Hw2, Hw1. auto.
    + split; [left; congruence|].
      exists [EventStatus; Data data]. rewrite Hw2, Hw1, <- app_assoc. auto.
Qed.

Lemma keepAlive_tick_spec c :
  (control (keepAlive_tick write_throws c) = control c
   ∨ control (keepAlive_tick write_throws c) = control (cleanup c))
  ∧ ∃ extra, written (keepAlive_tick write_throws c) = written c ++ extra
             ∧ (extra = [] ∨ extra = [KeepAlive]).
Proof.
  unfold keepAlive_tick.
  destruct (write write_throws KeepAlive c) as [c1 t1] eqn:E1.
  pose proof (write_control KeepAlive c) as Hc1.
  pose proof (write_written KeepAlive c) as Hw1.
  rewrite E1 in Hc1, Hw1. simpl in Hc1, Hw1.
  destruct t1.
  - split; [right; by apply cleanup_control_eq|].
    exists []. rewrite cleanup_written, Hw1, app_nil_r. auto.
  - split; [by left|]. exists [KeepAlive]. auto.
Qed.

(** *** Steps *)

Lemma later_chunk_event data extra :
  p_uptimePercent data ≠ Null →
  extra = [] ∨ extra = [EventStatus] ∨ extra = [EventStatus; Data data] →
  Forall later_chunk extra.
Proof.
  intros Hd [->|[->| ->]]; repeat constructor. exact Hd.
Qed.

(** Every action leaves the control part as it is or as the cleanup makes
    it, and appends only chunks that are not a first event. *)
Lemma step_spec monitorId a c c' :
  step monitorId a c = Some c' →
  (control c' = control c ∨ control c' = control (cleanup c))
  ∧ ∃ extra, written c' = written c ++ extra ∧ Forall later_chunk extra.
Proof.
  destruct a as [id now all|now all|]; simpl.
  - destruct (timers c !! id) as [[]|]; [| |discriminate]; intros [= <-].
    + destruct (keepAlive_tick_spec c) as [Hc (extra & Hw & Hx)].
      split; [exact Hc|]. exists extra. split; [exact Hw|].
      destruct Hx as [->| ->]; repeat constructor.
    + unfold poll_tick.
      destruct (last _) as [latest|];
        match goal with
        | |- context [StatusApi.sendEvent _ ?d c] =>
            destruct (sendEvent_spec d c) as [Hc (extra & Hw & Hx)]
        end;
        (split; [exact Hc|]); exists extra; (split; [exact Hw|]);
        (eapply later_chunk_event; [|exact Hx]); discriminate.
  - destruct (immediate_pending c); [|discriminate]. intros [= <-].
    unfold immediate_poll, control. simpl.
    destruct (last _) as [latest|].
    + match goal with
      | |- context [StatusApi.sendEvent _ ?d c] =>
          destruct (sendEvent_spec d c) as [Hc (extra & Hw & Hx)]
      end.
      split; [exact Hc|]. exists extra. split; [exact Hw|].
      eapply later_chunk_event; [|exact Hx]. discriminate.
    + split; [by left|]. exists []. by rewrite app_nil_r.
  - destruct (close_listener c); [|discriminate]. intros [= <-].
    unfold control. simpl. split; [by right|].
    exists []. by rewrite cleanup_written, app_nil_r.
Qed.

Lemma run_spec monitorId trace c c' :
  run monitorId trace c = Some c' →
  ∃ extra, written c' = written c ++ extra ∧ Forall later_chunk extra.
Proof.
  revert c. induction trace as [|a trace IH]; intros c; simpl.
  - intros [= <-]. exists []. by rewrite app_nil_r.
  - destruct (step monitorId a c) as [c1|] eqn:Hs; [|discriminate].
    intros Hrun. destruct (step_spec _ _ _ _ Hs) as [_ (e1 & Hw1 & Hx1)].
    destruct (IH _ Hrun) as (e2 & Hw2 & Hx2).
    exists (e1 ++ e2). split; [by rewrite Hw2, Hw1, app_assoc|].
    by apply Forall_app_2.
Qed.

Lemma leaking_cleanup c : leaking c → control (cleanup c) = control c.
Proof.
  intros H. rewrite cleanup_when_closed; [done|].
  unfold leaking, control in H. by injection H.
Qed.

Lemma run_leaking monitorId trace c c' :
  leaking c → run monitorId trace c = Some c' → leaking c'.
Proof.
  revert c. induction trace as [|a trace IH]; intros c Hl; simpl.
  - by intros [= <-].
  - destruct (step monitorId a c) as [c1|] eqn:Hs; [|discriminate].
    apply IH. destruct (step_spec _ _ _ _ Hs) as [[Hc|Hc] _];
      unfold leaking; rewrite Hc; [done|by rewrite leaking_cleanup].
Qed.

(** On a connection whose first event went out, the two intervals run
    until the first cleanup and are cleared once, whatever happens next. *)
Lemma run_streaming_or_torn_down monitorId trace c c' :
  streaming c ∨ torn_down c →
  run monitorId trace c = Some c' →
  streaming c' ∨ torn_down c'.
Proof.
  revert c. induction trace as [|a trace IH]; intros c Hinv; simpl.
  - by intros [= <-].
  - destruct (step monitorId a c) as [c1|] eqn:Hs; [|discriminate].
    apply IH. destruct (step_spec _ _ _ _ Hs) as [[Hc|Hc] _].
    + destruct Hinv as [H|H]; [left|right];
        unfold streaming, torn_down in *; by rewrite Hc.
    + right. destruct Hinv as [H|H].
      * apply cleanup_streaming in H. unfold torn_down in *. by rewrite Hc.
      * unfold torn_down in *. rewrite Hc, cleanup_when_closed; [done|].
        unfold control in H. by injection H.
Qed.

(** *** Setup *)

Lemma setup_first_event has_flush monitorId now :
  write_throws 0%nat = false → write_throws 1%nat = false →
  ∃ c0, setup true has_flush monitorId now = Some c0
        ∧ streaming c0
        ∧ written c0
          = [EventStatus; Data (placeholder toISOString monitorId now)]
        ∧ headers c0 = sse_headers.
Proof.
  intros H0 H1. unfold StatusApi.setup, StatusApi.sendEvent, write. simpl.
  rewrite H0. simpl. rewrite H1. simpl.
  eexists. split; [reflexivity|]. by repeat split.
Qed.

Lemma setup_first_write_fails has_flush monitorId now :
  write_throws 0%nat = true →
  ∃ c0, setup true has_flush monitorId now = Some c0
        ∧ leaking c0 ∧ written c0 = [].
Proof.
  intros H0. unfold StatusApi.setup, StatusApi.sendEvent, write. simpl.
  rewrite H0. simpl.
  eexists. split; [reflexivity|]. by repeat split.
Qed.

(** X30.  When the first event goes out, both intervals run until the
    first cleanup; a later cleanup, from whichever path
    and however often, leaves no interval running and has cleared each of
    the two exactly once. *)
Lemma teardown_after_first_event has_flush monitorId now trace c0 c :
  write_throws 0%nat = false → write_throws 1%nat = false →
  setup true has_flush monitorId now = Some c0 →
  run monitorId trace c0 = Some c →
  (closed c = false → timers c = both_timers ∧ cleared c = [])
  ∧ (closed c = true → timers c = ∅ ∧ cleared c = [1%nat; 0%nat]).
Proof.
  intros H0 H1 Hs Hrun.
  destruct (setup_first_event has_flush monitorId now H0 H1)
    as (c0' & Hs' & Hstream & _).
  rewrite Hs in Hs'. injection Hs' as <-.
  destruct (run_streaming_or_torn_down monitorId trace c0 c
              (or_introl Hstream) Hrun) as [H|H];
    unfold streaming, torn_down, control in H;
    injection H as Hcl _ _ Ht Hclr; rewrite Hcl; by split.
Qed.

(** C8 (as amended).  On a runtime that supports streaming, when the two
    writes of the first event succeed, the response starts with exactly
    one placeholder event: its success, latency and uptimePercent are
    null, it has no statusCode, and its timestamp is the time of the
    connection; whatever is written later is not a placeholder. *)
Theorem first_event_is_placeholder
    (has_flush : bool) (monitorId : option string) (now : Z) :
  write_throws 0%nat = false →
  write_throws 1%nat = false →
  ∃ c0 first,
    setup true has_flush monitorId now = Some c0
    ∧ written c0 = [EventStatus; Data first]
    ∧ p_success first = Null
    ∧ p_latency first = Null
    ∧ p_uptimePercent first = Null
    ∧ p_statusCode first = Absent
    ∧ p_timestamp first = Val (toISOString now)
    ∧ ∀ trace c,
        run monitorId trace c0 = Some c →
        ∃ rest, written c = EventStatus :: Data first :: rest
                ∧ Forall later_chunk rest.
Proof.
  intros H0 H1.
  destruct (setup_first_event has_flush monitorId now H0 H1)
    as (c0 & Hs & _ & Hw & _).
  exists c0, (placeholder toISOString monitorId now).
  repeat split; try done.
  intros trace c Hrun. destruct (run_spec _ _ _ _ Hrun) as (rest & Hw' & Hx).
  exists rest. by rewrite Hw', Hw.
Qed.

(** C9.  When the very first write throws, the cleanup runs before the
    intervals exist: the connection counts as closed, the two intervals
    are then started, and neither the client's disconnect nor anything
    after it clears them; both can still fire. *)
Theorem failed_first_write_leaks_timers
    (has_flush : bool) (monitorId : option string) (now : Z) :
  write_throws 0%nat = true →
  ∃ c0,
    setup true has_flush monitorId now = Some c0
    ∧ closed c0 = true
    ∧ (∃ c1, step monitorId ClientClose c0 = Some c1)
    ∧ ∀ trace c,
        run monitorId (ClientClose :: trace) c0 = Some c →
        timers c = both_timers
        ∧ cleared c = []
        ∧ ∀ now' all,
            is_Some (step monitorId (Fire 0 now' all) c)
            ∧ is_Some (step monitorId (Fire 1 now' all) c).
Proof.
  intros H0.
  destruct (setup_first_write_fails has_flush monitorId now H0)
    as (c0 & Hs & Hleak & _).
  exists c0. split; [exact Hs|].
  split; [unfold leaking, control in Hleak; by injection Hleak|].
  split.
  { unfold StatusApi.setup in Hs. simpl in Hs. injection Hs as <-.
    simpl. eauto. }
  intros trace c Hrun.
  pose proof (run_leaking _ _ _ _ Hleak Hrun) as Hl.
  unfold leaking, control in Hl. injection Hl as _ _ _ Ht Hclr.
  split; [exact Ht|]. split; [exact Hclr|].
  intros now' all. simpl. rewrite Ht. unfold both_timers.
  rewrite lookup_insert_ne by done. rewrite !lookup_insert_eq.
  split; eauto.
Qed.

End Facts.

Lemma first_event_is_placeholder_witness :
  ∃ c0 first,
    StatusApi.setup never_throws demo_iso true true (Some "m1"%string) 0
    = Some c0
    ∧ written c0 = [EventStatus; Data first]
    ∧ p_success first = Null
    ∧ p_latency first = Null
    ∧ p_uptimePercent first = Null
    ∧ p_statusCode first = Absent
    ∧ p_timestamp first = Val (demo_iso 0)
    ∧ ∀ trace c,
        StatusApi.run never_throws demo_iso (fun _ => None) (Some "m1"%string)
                      trace c0 = Some c →
        ∃ rest, written c = EventStatus :: Data first :: rest
                ∧ Forall later_chunk rest.
Proof.
  apply (first_event_is_placeholder never_throws demo_iso (fun _ => None)
           true (Some "m1"%string) 0); reflexivity.
Defined.

(** C8 as stated fails: the first event carries the current time as its
    timestamp and has no statusCode property. *)
Lemma placeholder_fields_counterexample :
  ∃ c0 first,
    StatusApi.setup never_throws demo_iso true true (Some "m1"%string) 0
    = Some c0
    ∧ written c0 = [EventStatus; Data first]
    ∧ ¬ all_metric_fields_null first.
Proof.
  eexists _, _. split; [reflexivity|]. split; [reflexivity|].
  intros (_ & _ & Hstatus & _). discriminate Hstatus.
Qed.

Lemma failed_first_write_leaks_timers_witness :
  ∃ c0,
    StatusApi.setup first_write_throws demo_iso true true (Some "m1"%string) 0
    = Some c0
    ∧ closed c0 = true
    ∧ (∃ c1, StatusApi.step first_write_throws demo_iso (fun _ => None)
               (Some "m1"%string) ClientClose c0 = Some c1)
    ∧ ∀ trace c,
        StatusApi.run first_write_throws demo_iso (fun _ => None)
                      (Some "m1"%string) (ClientClose :: trace) c0 = Some c →
        timers c = both_timers
        ∧ cleared c = []
        ∧ ∀ now' all,
            is_Some (StatusApi.step first_write_throws demo_iso (fun _ => None)
                       (Some "m1"%string) (Fire 0 now' all) c)
            ∧ is_Some (StatusApi.step first_write_throws demo_iso
                         (fun _ => None) (Some "m1"%string)
                         (Fire 1 now' all) c).
Proof.
  apply (failed_first_write_leaks_timers first_write_throws demo_iso
           (fun _ => None) true (Some "m1"%string) 0); reflexivity.
Defined.

(** A stream opened for a monitor without metrics: the placeholder, then
    an empty event at the first poll, a keep-alive comment, and on the
    client's disconnect both intervals are cleared. *)
Example stream_without_metrics :
  demo_session never_throws
    [ImmediatePoll 10 []; Fire 1 2000 []; Fire 0 3000 []; ClientClose]
  = Some ([EventStatus; Data (placeholder demo_iso (Some "m1"%string) 0);
           EventStatus; Data (empty_event demo_iso (Some "m1"%string) 2000);
           KeepAlive],
          ∅, [1%nat; 0%nat]).
Proof. reflexivity. Qed.

(** The same session when the first write throws: nothing is written for
    the first event and the disconnect clears nothing. *)
Example stream_first_write_fails :
  demo_session first_write_throws [ClientClose; Fire 0 3000 []]
  = Some ([KeepAlive], both_timers, []).
Proof. reflexivity. Qed.

End StatusApiFacts.

(** ** More on the probe executor and the state machine *)

Module PipelineMore.
Import PingMonitor Pipeline.

Section Facts.
Variable toISOString : Z → string.

(** X1.  A probe for a monitor that is not registered, or whose
    configuration has no URL, changes nothing: the store is as it was, no
    event is emitted and no metric is recorded. *)
Theorem probe_of_unknown_monitor_is_noop
    (monitorId : string) (o : AxiosOutcome) (ck : Clock) (st : Store) :
  (monitors st !! monitorId = None
   ∨ ∃ monitor, monitors st !! monitorId = Some monitor
                ∧ Js.truthy (mc_url monitor) = false) →
  handler toISOString monitorId o ck st = (st, [], None)
  ∧ probe toISOString monitorId (o, ck) st = (st, []).
Proof.
  intros H. unfold probe. simpl.
  assert (handler toISOString monitorId o ck st = (st, [], None)) as ->.
  { unfold handler. destruct H as [->|(monitor & -> & ->)]; reflexivity. }
  done.
Qed.

(** The events of the executor, case by case. *)
Lemma handler_events monitorId o ck st monitor :
  monitors st !! monitorId = Some monitor →
  Js.truthy (mc_url monitor) = true →
  (handler toISOString monitorId o ck st).1.2
  = if (classify o).2 then
      (if bool_decide (outage_open monitorId st)
       then [MONITOR_RECOVERED monitorId] else [])
      ++ [CHECK_ANOMALY monitorId]
    else if (threshold_of monitor <=? failures_of monitorId st + 1)
            && negb (bool_decide (outage_open monitorId st))
         then [MONITOR_DOWN monitorId] else [].
Proof.
  intros Hm Hu.
  unfold handler, record_and_transition, threshold_of, failures_of,
    outage_open.
  rewrite Hm, Hu. simpl.
  destruct (classify o).2; simpl.
  - destruct (bool_decide (Js.nullish (monitor_failures st !! monitorId) 0
                           ≠ 0)); simpl;
      destruct (bool_decide (monitor_state st !! monitorId = Some DOWN
                             ∨ monitor_state st !! monitorId = Some ALERTED));
      reflexivity.
  - destruct (_ <=? _); simpl; [|reflexivity].
    do 2 case_bool_decide; simpl; try reflexivity; exfalso; intuition.
Qed.

(** X2.  For a registered monitor the executor asks for an anomaly check
    exactly when the probe succeeded, and then exactly once; a failed
    probe emits at most the MONITOR_DOWN event and a successful one never
    emits it. *)
Theorem anomaly_check_follows_success_only
    (monitorId : string) (o : AxiosOutcome) (ck : Clock) (st : Store)
    (monitor : MonitorConfig) :
  monitors st !! monitorId = Some monitor →
  Js.truthy (mc_url monitor) = true →
  let events := (handler toISOString monitorId o ck st).1.2 in
  ((classify o).2 = true →
   events = [CHECK_ANOMALY monitorId]
   ∨ events = [MONITOR_RECOVERED monitorId; CHECK_ANOMALY monitorId])
  ∧ ((classify o).2 = false →
     events = [] ∨ events = [MONITOR_DOWN monitorId]).
Proof.
  intros Hm Hu events. subst events.
  rewrite (handler_events monitorId o ck st monitor Hm Hu).
  split; intros ->.
  - destruct (bool_decide (outage_open monitorId st)); auto.
  - destruct (_ && _); auto.
Qed.







(** X5.  A probe of one monitor, with the deliveries it triggers, leaves
    the counter and the alert state of every other monitor, all monitor
    configurations and every metric already stored under another key as
    they were. *)
Theorem probe_touches_only_its_monitor
    (monitorId other : string) (p : AxiosOutcome * Clock) (st : Store) :
  other ≠ monitorId →
  let st' := (probe toISOString monitorId p st).1 in
  monitor_failures st' !! other = monitor_failures st !! other
  ∧ monitor_state st' !! other = monitor_state st !! other
  ∧ monitors st' = monitors st
  ∧ ∀ k, k ≠ (monitorId, t_key p.2) →
         monitor_metrics st' !! k = monitor_metrics st !! k.
Proof.
  intros Hne. unfold probe, handler.
  destruct (monitors st !! monitorId) as [monitor|]; [|done].
  destruct (Js.truthy (mc_url monitor)); simpl; [|done].
  unfold record_and_transition. simpl.
  repeat match goal with
         | |- context [bool_decide ?P] => destruct (bool_decide P); simpl
         | |- context [if ?b then _ else _] => destruct b; simpl
         end;
    unfold MonitorState.handler, MonitorState.handlerRecovered; simpl;
    repeat match goal with
           | |- context [bool_decide ?P] => destruct (bool_decide P); simpl
           end;
    rewrite ?(lookup_insert_ne _ monitorId other) by done;
    repeat split; try done;
    intros k Hk; by rewrite lookup_insert_ne.
Qed.

(** X6.  When the bus delivers events later, at any point between the
    probes, a run of failed probes from a state with no open outage still
    requests at most one down-alert, and once it is requested the monitor
    is ALERTED and no event is left waiting. *)
Theorem deferred_bus_requests_at_most_one_alert
    (monitorId : string) (ms : list Move) (st : Store)
    (monitor : MonitorConfig) :
  monitors st !! monitorId = Some monitor →
  Js.truthy (mc_url monitor) = true →
  Forall failed_move ms →
  ¬ outage_open monitorId st →
  let b := moves toISOString monitorId ms (mkBus st [] []) in
  (bus_sent b = [] ∨ bus_sent b = [down_alert monitorId])
  ∧ (bus_sent b = [down_alert monitorId] →
     monitor_state (bus_store b) !! monitorId = Some ALERTED
     ∧ bus_pending b = [])
  ∧ (bus_pending b = [] ∨ bus_pending b = [MONITOR_DOWN monitorId]).
Proof.
  intros Hm Hu Hms Hcl b.
  destruct (PipelineFacts.deferred_delivery_alerts_at_most_once toISOString
              monitorId ms st monitor Hm Hu Hms Hcl)
    as [? Hp Hs|? Hp Hs|? Hp Hs];
    fold b in Hp, Hs; rewrite Hp, Hs; repeat split; auto; discriminate.
Qed.

End Facts.

(** X7.  A MONITOR_DOWN event delivered twice requests one alert: the
    second delivery emits nothing and leaves the store as the first left
    it, with the monitor ALERTED.  Likewise a second MONITOR_RECOVERED
    emits nothing, and the monitor is UP after either. *)
Theorem duplicate_events_request_nothing (monitorId : string) (st : Store) :
  MonitorState.handler monitorId (MonitorState.handler monitorId st).1
  = ((MonitorState.handler monitorId st).1, [])
  ∧ monitor_state (MonitorState.handler monitorId st).1 !! monitorId
    = Some ALERTED
  ∧ (MonitorState.handlerRecovered monitorId
       (MonitorState.handlerRecovered monitorId st).1).2 = []
  ∧ monitor_state (MonitorState.handlerRecovered monitorId st).1 !! monitorId
    = Some UP.
Proof.
  unfold MonitorState.handler, MonitorState.handlerRecovered.
  destruct (monitor_state st !! monitorId) as [[]|] eqn:Hst; simpl;
    rewrite ?Hst, ?lookup_insert_eq; simpl;
    rewrite ?Hst, ?lookup_insert_eq; simpl; done.
Qed.

Lemma probe_of_unknown_monitor_is_noop_witness :
  PingMonitor.handler demo_iso "m2" (Resolved 200) (mkClock 0 0 80 81)
                      (demo_store ∅ ∅)
  = (demo_store ∅ ∅, [], None)
  ∧ probe demo_iso "m2" (answered 200 0) (demo_store ∅ ∅)
    = (demo_store ∅ ∅, []).
Proof.
  apply (probe_of_unknown_monitor_is_noop demo_iso "m2" (Resolved 200)
           (mkClock 0 0 80 81) (demo_store ∅ ∅)).
  left. reflexivity.
Defined.

Lemma anomaly_check_follows_success_only_witness :
  let events :=
    (PingMonitor.handler demo_iso "m1" (Resolved 200) (mkClock 0 0 80 81)
       (demo_store ∅ {[ "m1"%string := ALERTED ]})).1.2 in
  events = [CHECK_ANOMALY "m1"]
  ∨ events = [MONITOR_RECOVERED "m1"; CHECK_ANOMALY "m1"].
Proof.
  intros events.
  destruct (anomaly_check_follows_success_only demo_iso "m1" (Resolved 200)
              (mkClock 0 0 80 81)
              (demo_store ∅ {[ "m1"%string := ALERTED ]}) demo_monitor
              eq_refl eq_refl) as [Hok _].
  apply Hok. reflexivity.
Defined.



Lemma probe_touches_only_its_monitor_witness :
  let st := demo_store {[ "m2"%string := 2 ]} {[ "m2"%string := DOWN ]} in
  let st' := (probe demo_iso "m1" (refused 0) st).1 in
  monitor_failures st' !! "m2"%string = monitor_failures st !! "m2"%string
  ∧ monitor_state st' !! "m2"%string = monitor_state st !! "m2"%string
  ∧ monitors st' = monitors st
  ∧ ∀ k, k ≠ ("m1"%string, t_key (refused 0).2) →
         monitor_metrics st' !! k = monitor_metrics st !! k.
Proof.
  intros st st'.
  apply (probe_touches_only_its_monitor demo_iso "m1" "m2" (refused 0) st).
  discriminate.
Defined.

Lemma deferred_bus_requests_at_most_one_alert_witness :
  let b :=
    moves demo_iso "m1"
          [Probe (refused 0); Probe (refused 60000); Probe (refused 120000);
           Probe (refused 180000); Deliver; Probe (refused 240000); Deliver]
          (mkBus (demo_store ∅ ∅) [] []) in
  (bus_sent b = [] ∨ bus_sent b = [down_alert "m1"])
  ∧ (bus_sent b = [down_alert "m1"] →
     monitor_state (bus_store b) !! "m1"%string = Some ALERTED
     ∧ bus_pending b = [])
  ∧ (bus_pending b = [] ∨ bus_pending b = [MONITOR_DOWN "m1"]).
Proof.
  intros b.
  apply (deferred_bus_requests_at_most_one_alert demo_iso "m1"
           [Probe (refused 0); Probe (refused 60000); Probe (refused 120000);
            Probe (refused 180000); Deliver; Probe (refused 240000); Deliver]
           (demo_store ∅ ∅) demo_monitor).
  - reflexivity.
  - reflexivity.
  - repeat constructor.
  - intros [H|H]; vm_compute in H; discriminate.
Defined.

End PipelineMore.

(** ** The probe dispatcher *)

Module PingMonitorsCronFacts.
Import PingMonitorsCron.

Lemma truthy_some (s : string) : Js.truthy (Some s) = true ↔ s ≠ ""%string.
Proof. destruct s; simpl; split; (done || discriminate). Qed.

Lemma dispatch_elem (ms : list Listed) (monitorId : string) :
  PING_MONITOR monitorId ∈ dispatch ms
  ↔ monitorId ≠ ""%string ∧ ∃ m, m ∈ ms ∧ resolve m = Some monitorId.
Proof.
  induction ms as [|m ms IH]; cbn [dispatch].
  - split; [intros H; by apply elem_of_nil in H|].
    intros (_ & m & Hin & _). by apply elem_of_nil in Hin.
  - destruct (resolve m) as [i|] eqn:Hr.
    + destruct (Js.truthy (Some i)) eqn:Ht; cbn [negb].
      * rewrite elem_of_cons, IH. apply truthy_some in Ht. split.
        -- intros [[= ->]|(Hne & m' & Hin & Hr')].
           ++ split; [done|]. exists m. split; [left|done].
           ++ split; [done|]. exists m'. split; [by right|done].
        -- intros (Hne & m' & Hin & Hr').
           apply elem_of_cons in Hin as [->|Hin].
           ++ left. congruence.
           ++ right. split; [done|]. by exists m'.
      * rewrite IH. split.
        -- intros (Hne & m' & Hin & Hr'). split; [done|].
           exists m'. split; [by right|done].
        -- intros (Hne & m' & Hin & Hr'). split; [done|].
           apply elem_of_cons in Hin as [->|Hin]; [|by exists m'].
           rewrite Hr in Hr'. injection Hr' as ->.
           apply truthy_some in Hne. congruence.
    + rewrite IH. split.
      * intros (Hne & m' & Hin & Hr'). split; [done|].
        exists m'. split; [by right|done].
      * intros (Hne & m' & Hin & Hr'). split; [done|].
        apply elem_of_cons in Hin as [->|Hin]; [congruence|by exists m'].
Qed.

Lemma dispatch_length (ms : list Listed) :
  (length (dispatch ms) ≤ length ms)%nat.
Proof.
  induction ms as [|m ms IH]; cbn [dispatch]; [done|].
  destruct (resolve m) as [i|]; [destruct (Js.truthy (Some i))|];
    simpl; lia.
Qed.

Lemma dispatch_only_pings (ms : list Listed) (e : Event) :
  e ∈ dispatch ms → ∃ monitorId, e = PING_MONITOR monitorId.
Proof.
  induction ms as [|m ms IH]; cbn [dispatch];
    [intros H; by apply elem_of_nil in H|].
  destruct (resolve m) as [i|]; [destruct (Js.truthy (Some i))|];
    cbn [negb]; try exact IH.
  intros [->|H]%elem_of_cons; [by exists i|by apply IH].
Qed.

Lemma handler_dispatch (ms : list Listed) : handler (Some ms) = dispatch ms.
Proof. by destruct ms. Qed.

(** X8.  A tick of the dispatcher emits PING_MONITOR for an id exactly
    when the id is not empty and some listed monitor has it as its [id],
    or as its [monitorId] when it has no [id]; entries without an id are
    skipped, nothing but PING_MONITOR is emitted, at most one event per
    listed monitor, and nothing when the group is missing or empty. *)
Theorem dispatcher_pings_each_identified_monitor (ms : list Listed) :
  (∀ monitorId,
     PING_MONITOR monitorId ∈ handler (Some ms)
     ↔ monitorId ≠ ""%string ∧ ∃ m, m ∈ ms ∧ resolve m = Some monitorId)
  ∧ (∀ e, e ∈ handler (Some ms) → ∃ monitorId, e = PING_MONITOR monitorId)
  ∧ (length (handler (Some ms)) ≤ length ms)%nat
  ∧ handler None = [] ∧ handler (Some []) = [].
Proof.
  rewrite handler_dispatch.
  split; [intros monitorId; apply dispatch_elem|].
  split; [apply dispatch_only_pings|].
  split; [apply dispatch_length|done].
Qed.

Example dispatch_demo_listing :
  handler (Some demo_listing) = [PING_MONITOR "a"; PING_MONITOR "b"].
Proof. reflexivity. Qed.

End PingMonitorsCronFacts.

(** ** More on the anomaly detector *)

Module CheckAnomalyMore.
Import CheckAnomaly.

#[local] Arguments mean : simpl never.
#[local] Arguments pstdev : simpl never.
#[local] Arguments zscore : simpl never.
#[local] Arguments severityFromZ : simpl never.
#[local] Arguments errorRates_of : simpl never.
#[local] Arguments errorRate : simpl never.

(** *** Sums, means and deviations *)



Lemma fold_squares_nonneg (mu : R) (l : list R) (a : R) :
  (0 <= a)%R →
  (0 <= fold_left (fun s v => s + (v - mu) * (v - mu)) l a)%R.
Proof.
  revert a. induction l as [|x l IH]; intros a Ha; simpl; [done|].
  apply IH. pose proof (Rle_0_sqr (x - mu)) as Hsq. unfold Rsqr in Hsq. lra.
Qed.

Lemma INR_length_pos {A} (x : A) (l : list A) : (0 < INR (length (x :: l)))%R.
Proof. apply lt_0_INR. simpl. lia. Qed.








(** *** The window *)

Section Window.
Variable Date_parse : string → option Z.

Lemma collect_elem monitorId windowStart all m d :
  (m, d) ∈ collect Date_parse monitorId windowStart all
  ↔ m ∈ all ∧ m_monitorId m = monitorId
    ∧ parseISO Date_parse (m_timestamp m) = Some d ∧ (windowStart ≤ d)%Z.
Proof.
  induction all as [|m' all IH]; cbn [collect].
  - split; [intros H; by apply elem_of_nil in H|].
    intros (H & _). by apply elem_of_nil in H.
  - case_bool_decide as Hid.
    + rewrite IH, elem_of_cons. split; [intros (?&?&?&?); auto|].
      intros ([->|?] & Hm & ?); [by destruct Hid|auto].
    + try apply dec_stable in Hid.
      destruct (parseISO Date_parse (m_timestamp m')) as [d'|] eqn:Hp.
      * destruct (Z.ltb_spec d' windowStart) as [Hold|Hin].
        -- rewrite IH, elem_of_cons. split; [intros (?&?&?&?); auto|].
           intros ([->|?] & Hm & Hp' & ?); [|auto].
           rewrite Hp in Hp'. injection Hp' as ->. lia.
        -- rewrite !elem_of_cons, IH. split.
           ++ intros [[= -> ->]|(?&?&?&?)]; auto.
           ++ intros ([->|?] & Hm & Hp' & ?); [|auto].
              left. rewrite Hp in Hp'. by injection Hp' as ->.
      * rewrite IH, elem_of_cons. split; [intros (?&?&?&?); auto|].
        intros ([->|?] & Hm & Hp' & ?); [congruence|auto].
Qed.

Lemma collect_drop monitorId windowStart before after m :
  (m_monitorId m ≠ monitorId
   ∨ parseISO Date_parse (m_timestamp m) = None
   ∨ ∃ d, parseISO Date_parse (m_timestamp m) = Some d ∧ (d < windowStart)%Z) →
  collect Date_parse monitorId windowStart (before ++ m :: after)
  = collect Date_parse monitorId windowStart (before ++ after).
Proof.
  intros Hout. induction before as [|m' before IH]; cbn [collect app].
  - destruct Hout as [Hid|[Hp|(d & Hp & Hold)]].
    + by rewrite bool_decide_eq_true_2.
    + rewrite Hp. by case_bool_decide.
    + rewrite Hp. apply Z.ltb_lt in Hold. rewrite Hold. by case_bool_decide.
  - by rewrite IH.
Qed.

(** X11.  The detector analyses exactly the metrics of the monitor whose
    timestamp parses and is not older than 60 minutes; it answers
    no_metrics, without an event, exactly when there is none, and
    otherwise the sample count of a full result is their number. *)
Theorem window_holds_recent_metrics_of_monitor
    (monitorId : string) (now : Z) (all : list Metric) :
  let window := collect Date_parse monitorId (now - 60 * 60 * 1000) all in
  (∀ m d, (m, d) ∈ window
          ↔ m ∈ all ∧ m_monitorId m = monitorId
            ∧ parseISO Date_parse (m_timestamp m) = Some d
            ∧ (now - 60 * 60 * 1000 ≤ d)%Z)
  ∧ (handler Date_parse monitorId now all = (NoMetrics, []) ↔ window = [])
  ∧ (∀ r, (handler Date_parse monitorId now all).1 = Detail r →
          d_samples r = length window).
Proof.
  intros window. split; [intros m d; apply collect_elem|].
  unfold handler. fold window.
  destruct window as [|x xs] eqn:Hw.
  - split; [done|]. intros r [=].
  - destruct (latencies_of _) as [|v vs].
    + split; [split; discriminate|]. intros r [=].
    + split; [split; discriminate|]. intros r [= <-]. simpl.
      change (insert_by snd x (sort_by snd xs)) with (sort_by snd (x :: xs)).
      by rewrite (CheckAnomalyFacts.sort_by_perm snd (x :: xs)).
Qed.

(** X12.  A metric of another monitor, one whose timestamp does not
    parse, or one older than 60 minutes has no influence: removing it
    from the store leaves the result and the emitted events unchanged. *)
Theorem metric_outside_window_is_ignored
    (monitorId : string) (now : Z) (before after : list Metric) (m : Metric) :
  (m_monitorId m ≠ monitorId
   ∨ parseISO Date_parse (m_timestamp m) = None
   ∨ ∃ d, parseISO Date_parse (m_timestamp m) = Some d
          ∧ (d < now - 60 * 60 * 1000)%Z) →
  handler Date_parse monitorId now (before ++ m :: after)
  = handler Date_parse monitorId now (before ++ after).
Proof.
  intros Hout. unfold handler. by rewrite collect_drop.
Qed.

(** X13.  The detector emits an event exactly when the severity of its
    result is not NORMAL, and then exactly one: a SEND_ALERT for the
    monitor with that severity and the full result as diagnostic. *)
Theorem alert_exactly_when_abnormal
    (monitorId : string) (now : Z) (all : list Metric) :
  let r := handler Date_parse monitorId now all in
  (r.2 = [] ↔ result_severity r.1 = NORMAL)
  ∧ (r.2 ≠ [] →
     ∃ d, r.1 = Detail d ∧ d_severity d ≠ NORMAL
          ∧ r.2 = [SEND_ALERT monitorId (d_severity d) (Some (DiagAnomaly d))]).
Proof.
  unfold handler.
  destruct (collect _ _ _ _) as [|x xs]; [by split|].
  destruct (latencies_of _) as [|v vs]; [by split|].
  cbn [fst snd result_severity d_severity].
  case_bool_decide as Hsev.
  - split; [split; [discriminate|intros Hn; by destruct Hsev]|].
    intros _. eexists. split; [reflexivity|]. split; [exact Hsev|reflexivity].
  - try apply dec_stable in Hsev. split; [by split|]. by intros [].
Qed.

End Window.

Lemma metric_outside_window_is_ignored_witness :
  handler demo_parse "m1" 3690000
          ([steady] ++ mkMetric "m2" "3600000" (Some 900%R) None None :: [spike])
  = handler demo_parse "m1" 3690000 ([steady] ++ [spike]).
Proof.
  apply (metric_outside_window_is_ignored demo_parse "m1" 3690000 [steady]
           [spike] (mkMetric "m2" "3600000" (Some 900%R) None None)).
  left. discriminate.
Defined.

(** *** Minute buckets and error rates *)

Import Buckets.

Lemma some_if_nonempty {A} (l : list A) (x : A) :
  match l ++ [x] with [] => None | a :: arr => Some (a :: arr) end
  = Some (l ++ [x]).
Proof. by destruct l. Qed.

Lemma default_bucket (arr : list Stamped) :
  default [] (match arr with [] => None | a :: l => Some (a :: l) end) = arr.
Proof. by destruct arr. Qed.

Lemma fold_buckets (l pre : list Stamped) (b : gmap Z (list Stamped)) :
  (∀ k, b !! k = match bucket_of k pre with
           | [] => None | a :: arr => Some (a :: arr) end) →
  ∀ k, fold_left
         (fun buckets m =>
            <[minuteKey m := default [] (buckets !! minuteKey m) ++ [m]]>
              buckets) l b !! k
       = match bucket_of k (pre ++ l) with
         | [] => None | a :: arr => Some (a :: arr) end.
Proof.
  revert pre b. induction l as [|m l IH]; intros pre b Hb k.
  - simpl. rewrite app_nil_r. apply Hb.
  - cbn [fold_left].
    replace (pre ++ m :: l) with ((pre ++ [m]) ++ l)
      by (by rewrite <- app_assoc).
    apply (IH (pre ++ [m])).
    intros k'. unfold bucket_of. rewrite filter_app.
    destruct (decide (minuteKey m = k')) as [<-|Hne].
    + rewrite lookup_insert_eq, Hb, default_bucket.
      rewrite (filter_cons_True _ m []) by done.
      by rewrite filter_nil, some_if_nonempty.
    + rewrite lookup_insert_ne by done. rewrite Hb.
      rewrite (filter_cons_False _ m []) by done.
      by rewrite filter_nil, app_nil_r.
Qed.

Lemma bucketize_lookup (metrics : list Stamped) (k : Z) :
  bucketize metrics !! k
  = match bucket_of k metrics with
          | [] => None | a :: arr => Some (a :: arr) end.
Proof.
  unfold bucketize. apply (fold_buckets metrics [] ∅). intros k'.
  by rewrite lookup_empty.
Qed.

(** X14.  The per-minute buckets partition the window: the bucket of a
    minute holds exactly the samples of that minute, in window order, and
    exists only when there is one; every sample is in the bucket of its
    own minute, whose key is a whole minute not after the sample and less
    than a minute before it. *)
Theorem buckets_partition_by_minute (metrics : list Stamped) :
  (∀ k, bucketize metrics !! k
        = match bucket_of k metrics with
          | [] => None | a :: arr => Some (a :: arr) end)
  ∧ (∀ m, m ∈ metrics →
          ∃ arr, bucketize metrics !! minuteKey m = Some arr ∧ m ∈ arr)
  ∧ (∀ m : Stamped,
       (minuteKey m ≤ m.2 < minuteKey m + 60000)%Z
       ∧ (minuteKey m mod 60000 = 0)%Z).
Proof.
  split; [apply bucketize_lookup|]. split.
  - intros m Hm. rewrite bucketize_lookup.
    assert (m ∈ bucket_of (minuteKey m) metrics) as Hin
      by (by apply list_elem_of_filter).
    destruct (bucket_of (minuteKey m) metrics) as [|x arr];
      [by apply elem_of_nil in Hin|by eexists].
  - intros m. unfold minuteKey.
    pose proof (Z.mod_pos_bound m.2 60000 ltac:(lia)) as Hr.
    pose proof (Z.div_mod m.2 60000 ltac:(lia)) as Hd.
    split; [lia|]. by rewrite Z.mod_mul.
Qed.

Lemma fraction_bounds (f n : R) :
  (0 <= f <= n)%R → (0 < n)%R → (0 <= f / n <= 1)%R.
Proof.
  intros [H0 H1] Hn. unfold Rdiv. split.
  - apply Rmult_le_pos; [done|]. left. by apply Rinv_0_lt_compat.
  - apply Rmult_le_reg_r with n; [done|].
    rewrite Rmult_assoc, Rinv_l by lra. lra.
Qed.

Lemma errorRate_bounds (arr : list Stamped) : (0 <= errorRate arr <= 1)%R.
Proof.
  unfold errorRate. destruct arr as [|x arr]; [simpl; lra|].
  replace (0 <? length (x :: arr))%nat with true by done.
  pose proof (INR_length_pos x arr) as Hn.
  set (fails := filter (λ y : Stamped, m_success y.1 = Some false) (x :: arr)).
  assert (0 <= INR (length fails) <= INR (length (x :: arr)))%R as [H0 H1].
  { split; [apply pos_INR|]. apply le_INR. apply length_filter. }
  by apply fraction_bounds.
Qed.

(** X15.  Every per-minute error rate is a fraction between 0 and 1, it
    is 0 exactly when the bucket has no failed sample, and so is every
    entry of the sequence the error-rate z-score is computed from. *)
Theorem error_rates_are_fractions (metrics arr : list Stamped) :
  (0 <= errorRate arr <= 1)%R
  ∧ (errorRate arr = 0%R ↔ failures_in arr = [])
  ∧ Forall (λ r, 0 <= r <= 1)%R (errorRates_of metrics).
Proof.
  split; [apply errorRate_bounds|]. split.
  - unfold errorRate, failures_in. destruct arr as [|x arr]; [done|].
    replace (0 <? length (x :: arr))%nat with true by done.
    pose proof (INR_length_pos x arr) as Hn.
    set (fails := filter _ (x :: arr)).
    split.
    + intros Hz. apply length_zero_iff_nil. apply INR_eq. simpl (INR 0).
      set (n := INR (length (x :: arr))) in *.
      assert (INR (length fails) / n * n = INR (length fails))%R as Hq
        by (field; lra).
      rewrite Hz in Hq. lra.
    + intros ->. simpl. lra.
  - unfold errorRates_of. apply Forall_forall. intros r Hr.
    apply list_elem_of_fmap in Hr as (k & -> & _). apply errorRate_bounds.
Qed.

End CheckAnomalyMore.

(** ** More on the alert router *)

Module SendAlertMore.
Import SendAlert Routing.

Section Facts.
Variable post_fails : Request → bool.
Variable toISOString : Z → string.
Variable Date_parse : string → option Z.
Variable show_Z : Z → string.
Variable show_R : R → string.
Variable stringify : option Diagnostic → string.

Abbreviation handler :=
  (handler post_fails toISOString Date_parse show_Z show_R stringify).
Abbreviation contextPayload := (contextPayload toISOString Date_parse).
Abbreviation criticalText := (criticalText show_Z show_R stringify).

(** X16.  A WARNING alert on a known monitor is never sent by email: the
    only request is the webhook post, to the monitor's webhook or else to
    the process-wide one, with the context payload; without a webhook URL
    nothing is posted and a warning is logged. *)
Theorem warning_goes_to_webhook_only
    (env : Env) (monitorId : string) (diagnostic : option Diagnostic)
    (now : Z) (st : Store) (allMetrics : list Metric)
    (monitor : MonitorConfig) :
  monitors st !! monitorId = Some monitor →
  let trace := handler env monitorId WARNING diagnostic now st allMetrics in
  let p :=
    contextPayload monitorId monitor WARNING diagnostic now allMetrics in
  match Js.or (mc_alertWebhookUrl monitor) (MONITOR_WEBHOOK_URL env) with
  | Some (String a w) => posts trace = [WebhookPost (String a w) p]
  | _ => posts trace = []
         ∧ Log Warn "Webhook not sent: no webhook URL configured" ∈ trace
  end.
Proof.
  intros Hm trace p. subst trace. unfold SendAlert.handler. rewrite Hm.
  fold p. unfold webhook, webhookUrl. simpl.
  destruct (Js.or _ _) as [[|a w]|]; simpl.
  - split; [done|SendAlertFacts.in_trace].
  - by destruct (post_fails _).
  - split; [done|SendAlertFacts.in_trace].
Qed.

(** X17.  Nothing is posted for an alert on a monitor that is not
    registered, whatever the severity, nor for a NORMAL alert that does
    not carry the recovery marker. *)
Theorem nothing_is_posted_without_cause
    (env : Env) (monitorId : string) (severity : Severity)
    (diagnostic : option Diagnostic) (now : Z) (st : Store)
    (allMetrics : list Metric) :
  (monitors st !! monitorId = None
   ∨ (severity = NORMAL ∧ diagnostic ≠ Some DiagRecovered)) →
  posts (handler env monitorId severity diagnostic now st allMetrics) = [].
Proof.
  intros [Hm|[-> Hd]]; unfold SendAlert.handler.
  - by rewrite Hm.
  - destruct (monitors st !! monitorId) as [monitor|]; [|done].
    unfold recovery. simpl.
    destruct diagnostic as [[]|]; simpl; done.
Qed.

(** X18.  The two recovery notices are independent: for a NORMAL alert
    with the recovery marker the email is posted exactly when the email
    settings are complete and the webhook exactly when a webhook URL is
    set, the email first, whether or not either post fails; a failure is
    logged as a warning and never as a routing error. *)
Theorem recovery_notices_are_independent
    (env : Env) (monitorId : string) (now : Z) (st : Store)
    (allMetrics : list Metric) (monitor : MonitorConfig) :
  monitors st !! monitorId = Some monitor →
  let trace :=
    handler env monitorId NORMAL (Some DiagRecovered) now st allMetrics in
  let p :=
    contextPayload monitorId monitor NORMAL (Some DiagRecovered) now
                   allMetrics in
  posts trace
  = (if email_configured env monitor
     then [recovery_email env monitor p] else [])
    ++ (if Js.truthy (webhookUrl env monitor)
        then [WebhookPost (str (webhookUrl env monitor)) p] else [])
  ∧ Log Error "Error routing alert" ∉ trace.
Proof.
  intros Hm trace p. subst trace. unfold SendAlert.handler. rewrite Hm.
  fold p. unfold recovery, recovery_email. simpl.
  destruct (email_configured env monitor); simpl;
    [destruct (post_fails (EmailPost _ _ _ _ _ _)); simpl|];
    (destruct (Js.truthy (webhookUrl env monitor)); simpl;
     [destruct (post_fails (WebhookPost _ _)); simpl|]);
    (split; [reflexivity|]);
    intros Herr; SendAlertFacts.not_in_trace Herr.
Qed.

(** X19.  For a CRITICAL alert with complete email settings the email is
    posted first; the webhook post follows only when the email post did
    not fail and a webhook URL is set.  A failed email post ends the
    routing with the error logged, and the webhook is not tried. *)
Theorem critical_webhook_follows_email
    (env : Env) (monitorId : string) (diagnostic : option Diagnostic)
    (now : Z) (st : Store) (allMetrics : list Metric)
    (monitor : MonitorConfig) :
  monitors st !! monitorId = Some monitor →
  email_configured env monitor = true →
  let trace := handler env monitorId CRITICAL diagnostic now st allMetrics in
  let p :=
    contextPayload monitorId monitor CRITICAL diagnostic now allMetrics in
  let email :=
    EmailPost (str (emailApiUrl env monitor)) (str (emailApiKey env monitor))
              (str (emailTo env monitor)) (str (emailFrom env monitor))
              ("[CRITICAL] Monitor " ++ monitorId ++ " is down")
              (criticalText p) in
  posts trace
  = email :: (if post_fails email then []
              else if Js.truthy (webhookUrl env monitor)
                   then [WebhookPost (str (webhookUrl env monitor)) p]
                   else [])
  ∧ (post_fails email = true → Log Error "Error routing alert" ∈ trace).
Proof.
  intros Hm Hcfg trace p email. subst trace email.
  unfold SendAlert.handler. rewrite Hm.
  fold p. unfold critical_email, webhook. rewrite Hcfg. simpl.
  destruct (post_fails (EmailPost _ _ _ _ _ _)); simpl.
  - split; [reflexivity|]. intros _. SendAlertFacts.in_trace.
  - destruct (Js.truthy (webhookUrl env monitor)); simpl;
      [destruct (post_fails (WebhookPost _ _)); simpl|];
      (split; [reflexivity|discriminate]).
Qed.

Lemma omap_nil_all_none {A B} (f : A → option B) (l : list A) :
  omap f l = [] ↔ ∀ x, x ∈ l → f x = None.
Proof.
  split; [|apply CheckAnomalyFacts.omap_all_none].
  induction l as [|x l IH]; simpl; intros H y Hy;
    [by apply elem_of_nil in Hy|].
  destruct (f x) eqn:Hf; [discriminate|].
  apply elem_of_cons in Hy as [->|Hy]; [done|by apply IH].
Qed.

Lemma last_elem_of {A} (l : list A) (x : A) : last l = Some x → x ∈ l.
Proof. apply last_Some_elem_of. Qed.

(** X20.  The context payload summarises the monitor's window: the
    failure duration is missing exactly when the window is empty and is
    otherwise the whole seconds since one of its samples, hence not
    negative when no sample lies in the future; the average latency is
    missing exactly when no sample of the window has a latency. *)
Theorem payload_summarises_window
    (monitorId : string) (monitor : MonitorConfig) (severity : Severity)
    (diagnostic : option Diagnostic) (now : Z) (allMetrics : list Metric) :
  let p :=
    contextPayload monitorId monitor severity diagnostic now allMetrics in
  let window :=
    CheckAnomaly.collect Date_parse monitorId (now - 60 * 60 * 1000)
                         allMetrics in
  (cp_failureDurationSeconds p = None ↔ window = [])
  ∧ (∀ s, cp_failureDurationSeconds p = Some s →
          ∃ x, x ∈ window ∧ s = (now - x.2) / 1000)
  ∧ ((∀ x, x ∈ window → x.2 ≤ now) →
     ∀ s, cp_failureDurationSeconds p = Some s → 0 ≤ s)
  ∧ (cp_avgLatency p = None ↔ ∀ x, x ∈ window → m_latency x.1 = None)
  ∧ cp_monitorUrl p = mc_url monitor
  ∧ cp_diagnostic p = diagnostic.
Proof.
  intros p window. subst p. unfold SendAlert.contextPayload. fold window.
  cbn [cp_failureDurationSeconds cp_avgLatency cp_monitorUrl cp_diagnostic].
  pose proof (CheckAnomalyFacts.sort_by_perm snd window) as Hperm.
  set (metrics := CheckAnomaly.sort_by snd window) in *.
  set (successes := filter _ metrics).
  assert (∀ s,
            match last successes with
            | Some lastSuccess => Some ((now - lastSuccess.2) / 1000)
            | None => match metrics with
                      | first :: _ => Some ((now - first.2) / 1000)
                      | [] => None
                      end
            end = Some s →
            ∃ x, x ∈ window ∧ s = (now - x.2) / 1000) as Hfrom.
  { intros s. destruct (last successes) as [x|] eqn:Hl.
    - intros [= <-]. exists x. split; [|done].
      apply last_elem_of in Hl. apply list_elem_of_filter in Hl as [_ Hl].
      by rewrite <- Hperm.
    - destruct metrics as [|x rest] eqn:Hmet; [done|].
      intros [= <-]. exists x. split; [|done]. rewrite <- Hperm. left. }
  split; [|split; [exact Hfrom|split]].
  - destruct (last successes) as [x|] eqn:Hl.
    + split; [done|]. intros Hw. apply last_elem_of in Hl.
      apply list_elem_of_filter in Hl as [_ Hl].
      rewrite Hperm, Hw in Hl. by apply elem_of_nil in Hl.
    + destruct metrics as [|x rest] eqn:Hmet.
      * split; [|done]. intros _. by apply Permutation_nil_l in Hperm.
      * split; [done|]. intros Hw. rewrite Hw in Hperm.
        by apply Permutation_nil_r in Hperm.
  - intros Hpast s Hs. destruct (Hfrom s Hs) as (x & Hx & ->).
    apply Z.div_pos; [|lia]. specialize (Hpast x Hx). lia.
  - split; [|done].
    destruct (CheckAnomaly.latencies_of metrics) as [|v vs] eqn:Hlat.
    + split; [intros _|done]. intros x Hx.
      unfold CheckAnomaly.latencies_of in Hlat.
      rewrite omap_nil_all_none in Hlat. apply (Hlat x). by rewrite Hperm.
    + split; [done|]. intros Hnone.
      unfold CheckAnomaly.latencies_of in Hlat.
      rewrite (CheckAnomalyFacts.omap_all_none _ metrics) in Hlat; [done|].
      intros x Hx. apply Hnone. by rewrite <- Hperm.
Qed.

End Facts.

Lemma warning_goes_to_webhook_only_witness :
  posts (demo_handler hooked_env WARNING None (fun _ => false))
  = [WebhookPost "https://hooks.env.example/alerts"
                 (demo_payload WARNING None)].
Proof.
  exact (warning_goes_to_webhook_only (fun _ => false)
           (fun _ => "2026-01-01T00:10:00.000Z") (fun _ => None)
           (fun _ => "0") (fun _ => "0") (fun _ => "{}")
           hooked_env "m1" None 600000 demo_store [] demo_monitor eq_refl).
Defined.

Lemma nothing_is_posted_without_cause_witness :
  posts (demo_handler demo_env NORMAL None (fun _ => false)) = [].
Proof.
  apply (nothing_is_posted_without_cause (fun _ => false)
           (fun _ => "2026-01-01T00:10:00.000Z") (fun _ => None)
           (fun _ => "0") (fun _ => "0") (fun _ => "{}")
           demo_env "m1" NORMAL None 600000 demo_store []).
  right. split; [reflexivity|discriminate].
Defined.

(** Both recovery notices go out although every post fails. *)
Lemma recovery_notices_are_independent_witness :
  let env :=
    mkEnv (Some "https://mail.env.example/send") (Some "env-key") None
          (Some "noreply@env.example")
          (Some "https://hooks.env.example/alerts") in
  let p := demo_payload NORMAL (Some DiagRecovered) in
  posts (demo_handler env NORMAL (Some DiagRecovered) (fun _ => true))
  = [recovery_email env demo_monitor p;
     WebhookPost "https://hooks.env.example/alerts" p]
  ∧ Log Error "Error routing alert"
    ∉ demo_handler env NORMAL (Some DiagRecovered) (fun _ => true).
Proof.
  intros env p.
  exact (recovery_notices_are_independent (fun _ => true)
           (fun _ => "2026-01-01T00:10:00.000Z") (fun _ => None)
           (fun _ => "0") (fun _ => "0") (fun _ => "{}")
           env "m1" 600000 demo_store [] demo_monitor eq_refl).
Defined.

(** The email post fails: the webhook, though configured, is not tried. *)
Lemma critical_webhook_follows_email_witness :
  let env :=
    mkEnv (Some "https://mail.env.example/send") (Some "env-key") None
          (Some "noreply@env.example")
          (Some "https://hooks.env.example/alerts") in
  length (posts (demo_handler env CRITICAL None (fun _ => true))) = 1%nat
  ∧ Log Error "Error routing alert"
    ∈ demo_handler env CRITICAL None (fun _ => true).
Proof.
  intros env.
  destruct (critical_webhook_follows_email (fun _ => true)
              (fun _ => "2026-01-01T00:10:00.000Z") (fun _ => None)
              (fun _ => "0") (fun _ => "0") (fun _ => "{}")
              env "m1" None 600000 demo_store [] demo_monitor eq_refl eq_refl)
    as [Hposts Herr].
  split.
  - unfold demo_handler. rewrite Hposts. reflexivity.
  - apply Herr. reflexivity.
Defined.

End SendAlertMore.

(** ** More on the registration endpoint *)

Module MonitorsApiMore.
Import MonitorsApi.

Section Facts.
Variable is_url : string → bool.

(** What a successful parse says about each field of the body. *)
Lemma safeParse_fields fields data :
  safeParse is_url (Some (JObj fields)) = inr data →
  required (string_schema is_url true) (field "url" fields)
  = inr (in_url data)
  ∧ optional (string_schema is_url false) (field "name" fields)
    = inr (in_name data)
  ∧ optional posint_schema (field "failureThreshold" fields)
    = inr (in_failureThreshold data)
  ∧ optional posint_schema (field "timeoutMs" fields)
    = inr (in_timeoutMs data)
  ∧ optional (string_schema is_url true) (field "alertWebhookUrl" fields)
    = inr (in_alertWebhookUrl data)
  ∧ optional (string_schema is_url false) (field "alertTo" fields)
    = inr (in_alertTo data)
  ∧ optional (string_schema is_url false) (field "emailFrom" fields)
    = inr (in_emailFrom data).
Proof.
  simpl. intros Hparse.
  repeat match type of Hparse with
         | context [match ?r with inl _ => _ | inr _ => _ end] =>
             destruct r; try discriminate Hparse
         end.
  by injection Hparse as <-.
Qed.

Lemma safeParse_object request_body data :
  safeParse is_url request_body = inr data →
  ∃ fields, request_body = Some (JObj fields).
Proof.
  destruct request_body as [[| | | | |fields]|]; try discriminate.
  intros _. by exists fields.
Qed.

Lemma string_schema_url v u :
  string_schema is_url true v = inr u → v = JStr u ∧ is_url u = true.
Proof.
  destruct v; simpl; try discriminate.
  destruct (is_url s) eqn:Hu; simpl; [|discriminate].
  by intros [= <-].
Qed.

Lemma posint_schema_value v z :
  posint_schema v = inr z →
  1 ≤ z ∧ ∃ q, v = JNum q ∧ Qnum q = z * Zpos (Qden q).
Proof.
  destruct v; simpl; try discriminate.
  destruct (is_integer q) eqn:Hi, (is_positive q) eqn:Hp; simpl;
    try discriminate.
  intros [= <-]. unfold is_integer, is_positive in *.
  apply Z.eqb_eq in Hi. apply Z.ltb_lt in Hp.
  pose proof (Z.div_mod (Qnum q) (Zpos (Qden q)) ltac:(lia)) as Hd.
  rewrite Hi in Hd.
  split; [|exists q; split; [done|lia]].
  assert (0 < Qnum q / Zpos (Qden q)); [|lia].
  apply Z.div_str_pos. split; [lia|].
  destruct (Z.le_gt_cases (Zpos (Qden q)) (Qnum q)) as [?|Hlt]; [done|].
  rewrite Z.div_small in Hd by lia. lia.
Qed.

Lemma optional_some {A} (schema : Json → list Issue + A) v a :
  optional schema v = inr (Some a) → ∃ j, v = Some j ∧ schema j = inr a.
Proof.
  destruct v as [j|]; simpl; [|discriminate].
  destruct (schema j) eqn:Hs; [discriminate|].
  intros [= <-]. by exists j.
Qed.

(** X21.  A configuration stored by the endpoint is well formed: its id
    is the generated one, its URL passed the URL check, its failure
    threshold and its timeout are integers of at least 1, equal to the
    numbers of the body where the body gave them, and a webhook URL, when
    there is one, passed the URL check too. *)
Theorem stored_configuration_is_well_formed
    (request_body : option Json) (monitorId createdAt : string) (st : Store) :
  let r := handler is_url request_body monitorId createdAt false st in
  ∀ data, safeParse is_url request_body = inr data →
    ∃ c threshold timeout u,
      monitors r.1 !! monitorId = Some c
      ∧ mc_id c = monitorId
      ∧ mc_url c = Some u ∧ is_url u = true
      ∧ mc_failureThreshold c = Some threshold ∧ 1 ≤ threshold
      ∧ mc_timeoutMs c = Some timeout ∧ 1 ≤ timeout
      ∧ (∀ fields q, request_body = Some (JObj fields) →
           field "failureThreshold" fields = Some (JNum q) →
           Qnum q = threshold * Zpos (Qden q))
      ∧ (∀ w, mc_alertWebhookUrl c = Some w → is_url w = true).
Proof.
  intros r data Hparse. subst r. unfold handler. rewrite Hparse. simpl.
  destruct (safeParse_object _ _ Hparse) as (fields & ->).
  destruct (safeParse_fields fields data Hparse)
    as (Hurl & _ & Hft & Htm & Hwh & _).
  exists (monitorConfig monitorId data createdAt),
    (Js.nullish (in_failureThreshold data) 3),
    (Js.nullish (in_timeoutMs data) 5000), (in_url data).
  split; [apply lookup_insert_eq|]. split; [done|]. split; [done|].
  split.
  { destruct (field "url" fields) as [j|]; simpl in Hurl; [|discriminate].
    by apply string_schema_url in Hurl as [_ ?]. }
  split; [done|]. split.
  { destruct (in_failureThreshold data) as [z|]; simpl; [|lia].
    apply optional_some in Hft as (j & _ & Hj).
    by apply posint_schema_value in Hj as [? _]. }
  split; [done|]. split.
  { destruct (in_timeoutMs data) as [z|]; simpl; [|lia].
    apply optional_some in Htm as (j & _ & Hj).
    by apply posint_schema_value in Hj as [? _]. }
  split.
  { intros fields' q [= <-] Hf. rewrite Hf in Hft. simpl in Hft.
    destruct (is_integer q) eqn:Hi, (is_positive q) eqn:Hp; simpl in Hft;
      try discriminate.
    injection Hft as <-. simpl.
    unfold is_integer in Hi. apply Z.eqb_eq in Hi.
    pose proof (Z.div_mod (Qnum q) (Zpos (Qden q)) ltac:(lia)). lia. }
  intros w Hw. simpl in Hw. rewrite Hw in Hwh.
  apply optional_some in Hwh as (j & _ & Hj).
  by apply string_schema_url in Hj as [_ ?].
Qed.

(** X22.  The endpoint writes nothing but the new monitor's entry: the
    configurations of all other monitors, and the metrics, failure
    counters and alert states of all monitors, are as before, whatever
    the request and whether or not it is accepted. *)
Theorem creation_writes_only_the_new_entry
    (request_body : option Json) (monitorId createdAt : string)
    (set_throws : bool) (st : Store) :
  let st' :=
    (handler is_url request_body monitorId createdAt set_throws st).1 in
  (∀ other, other ≠ monitorId → monitors st' !! other = monitors st !! other)
  ∧ monitor_metrics st' = monitor_metrics st
  ∧ monitor_failures st' = monitor_failures st
  ∧ monitor_state st' = monitor_state st.
Proof.
  unfold handler.
  destruct (safeParse is_url request_body); [done|].
  destruct set_throws; [done|]. simpl.
  split; [|done]. intros other Hne. by rewrite lookup_insert_ne.
Qed.

Lemma field_skip key k v before after :
  k ≠ key →
  field key (before ++ (k, v) :: after) = field key (before ++ after).
Proof.
  intros Hne. induction before as [|[k' v'] before IH]; simpl.
  - by rewrite (proj2 (String.eqb_neq k key) Hne).
  - by rewrite IH.
Qed.

(** X23.  Properties of the body that the schema does not name are
    ignored: with such a property added anywhere in the body, the
    response and the stored configuration are the same. *)
Theorem unknown_properties_are_ignored
    (before after : list (string * Json)) (k : string) (v : Json)
    (monitorId createdAt : string) (set_throws : bool) (st : Store) :
  k ∉ ["url"; "name"; "failureThreshold"; "timeoutMs"; "alertWebhookUrl";
       "alertTo"; "emailFrom"]%string →
  handler is_url (Some (JObj (before ++ (k, v) :: after))) monitorId
          createdAt set_throws st
  = handler is_url (Some (JObj (before ++ after))) monitorId createdAt
            set_throws st.
Proof.
  intros Hk. unfold handler.
  assert (safeParse is_url (Some (JObj (before ++ (k, v) :: after)))
          = safeParse is_url (Some (JObj (before ++ after)))) as ->; [|done].
  unfold safeParse.
  rewrite !field_skip; [done|..]; intros ->; apply Hk;
    repeat (first [apply list_elem_of_here | apply list_elem_of_further]).
Qed.

(** X24.  A monitor created by the endpoint takes part in the pipeline:
    the next tick of the dispatcher emits PING_MONITOR for its id, and the
    probe executor then finds it with a URL and records a metric for it,
    counting failures against the stored threshold.  The generated id is
    not empty and the URL check rejects the empty string. *)
Theorem created_monitor_is_dispatched_and_probed
    (request_body : option Json) (monitorId createdAt : string) (st : Store)
    (data : Input) (toISOString : Z → string)
    (o : PingMonitor.AxiosOutcome) (ck : PingMonitor.Clock) :
  is_url "" = false →
  monitorId ≠ ""%string →
  safeParse is_url request_body = inr data →
  let st' := (handler is_url request_body monitorId createdAt false st).1 in
  PING_MONITOR monitorId
  ∈ PingMonitorsCron.handler (PingMonitorsCron.getGroup st')
  ∧ (PingMonitor.handler toISOString monitorId o ck st').2
    = Some (PingMonitor.build_metric toISOString monitorId o ck)
  ∧ ∃ c, monitors st' !! monitorId = Some c
         ∧ Pipeline.threshold_of c = Js.nullish (in_failureThreshold data) 3.
Proof.
  intros Hempty Hid Hparse st'. subst st'. unfold handler. rewrite Hparse.
  cbn [fst].
  set (c := monitorConfig monitorId data createdAt).
  set (st' := set_monitor monitorId c st).
  assert (monitors st' !! monitorId = Some c) as Hc by apply lookup_insert_eq.
  assert (Js.truthy (mc_url c) = true) as Hu.
  { simpl. destruct (safeParse_object _ _ Hparse) as (fields & ->).
    destruct (safeParse_fields fields data Hparse) as (Hurl & _).
    destruct (field "url" fields) as [j|]; simpl in Hurl; [|discriminate].
    apply string_schema_url in Hurl as [_ Hok].
    destruct (in_url data); [congruence|done]. }
  split; [|split].
  - unfold PingMonitorsCron.getGroup.
    rewrite PingMonitorsCronFacts.handler_dispatch.
    apply PingMonitorsCronFacts.dispatch_elem. split; [done|].
    exists (PingMonitorsCron.listed_of c). split; [|done].
    apply list_elem_of_fmap. exists c. split; [done|].
    apply list_elem_of_fmap. exists (monitorId, c). split; [done|].
    by apply elem_of_map_to_list.
  - by apply PingMonitorFacts.handler_metric with c.
  - by exists c.
Qed.

End Facts.

Lemma stored_configuration_is_well_formed_witness :
  ∃ c threshold timeout u,
    monitors (handler demo_is_url demo_body "1f0e" "2026-01-01T00:00:00.000Z"
                      false empty_store).1 !! "1f0e"%string = Some c
    ∧ mc_id c = "1f0e"%string
    ∧ mc_url c = Some u ∧ demo_is_url u = true
    ∧ mc_failureThreshold c = Some threshold ∧ 1 ≤ threshold
    ∧ mc_timeoutMs c = Some timeout ∧ 1 ≤ timeout
    ∧ (∀ fields q, demo_body = Some (JObj fields) →
         field "failureThreshold" fields = Some (JNum q) →
         Qnum q = threshold * Zpos (Qden q))
    ∧ (∀ w, mc_alertWebhookUrl c = Some w → demo_is_url w = true).
Proof.
  exact (stored_configuration_is_well_formed demo_is_url demo_body "1f0e"
           "2026-01-01T00:00:00.000Z" empty_store _ eq_refl).
Defined.

Lemma unknown_properties_are_ignored_witness :
  handler demo_is_url
          (Some (JObj ([("url"%string, JStr "https://example.org/health")]
                       ++ ("color"%string, JStr "red") :: [])))
          "1f0e" "2026-01-01T00:00:00.000Z" false empty_store
  = handler demo_is_url
            (Some (JObj ([("url"%string, JStr "https://example.org/health")]
                         ++ [])))
            "1f0e" "2026-01-01T00:00:00.000Z" false empty_store.
Proof.
  apply (unknown_properties_are_ignored demo_is_url
           [("url"%string, JStr "https://example.org/health")] []
           "color" (JStr "red")).
  intros H.
  repeat (apply elem_of_cons in H as [H|H]; [discriminate H|]).
  by apply elem_of_nil in H.
Defined.

Lemma created_monitor_is_dispatched_and_probed_witness :
  let st' :=
    (handler demo_is_url demo_body "1f0e" "2026-01-01T00:00:00.000Z" false
             empty_store).1 in
  PING_MONITOR "1f0e"
  ∈ PingMonitorsCron.handler (PingMonitorsCron.getGroup st')
  ∧ (PingMonitor.handler Pipeline.demo_iso "1f0e" (PingMonitor.Resolved 200)
       (PingMonitor.mkClock 0 0 80 81) st').2
    = Some (PingMonitor.build_metric Pipeline.demo_iso "1f0e"
              (PingMonitor.Resolved 200) (PingMonitor.mkClock 0 0 80 81))
  ∧ ∃ c, monitors st' !! "1f0e"%string = Some c
         ∧ Pipeline.threshold_of c = 3.
Proof.
  exact (created_monitor_is_dispatched_and_probed demo_is_url demo_body
           "1f0e" "2026-01-01T00:00:00.000Z" empty_store
           (mkInput "https://example.org/health" None None None None None
                    None)
           Pipeline.demo_iso (PingMonitor.Resolved 200)
           (PingMonitor.mkClock 0 0 80 81)
           eq_refl ltac:(discriminate) eq_refl).
Defined.

End MonitorsApiMore.

(** ** More on the status streamer *)

Module StatusApiMore.
Import StatusApi Framing.

(** X25.  The cleanup is idempotent: a second call changes nothing.  A
    first call on an open connection marks it closed, clears the polling
    interval and then the keep-alive interval when they exist, forgets
    both handles, and leaves what was written untouched. *)
Theorem cleanup_is_idempotent (c : Conn) :
  cleanup (cleanup c) = cleanup c
  ∧ closed (cleanup c) = true
  ∧ written (cleanup c) = written c
  ∧ (closed c = false →
     pollInterval (cleanup c) = None
     ∧ keepAliveInterval (cleanup c) = None
     ∧ cleared (cleanup c)
       = cleared c ++ option_list (pollInterval c)
                   ++ option_list (keepAliveInterval c)
     ∧ ∀ id, (pollInterval c = Some id ∨ keepAliveInterval c = Some id) →
             timers (cleanup c) !! id = None).
Proof.
  split; [apply StatusApiFacts.cleanup_idempotent|].
  split; [apply StatusApiFacts.cleanup_closed|].
  split; [apply StatusApiFacts.cleanup_written|].
  destruct c as [cl po ka hd fl tm nt clr wr ws ip li rs]. simpl.
  intros ->. unfold cleanup. simpl.
  destruct po as [p|], ka as [k|]; simpl;
    (split; [done|]); (split; [done|]);
    (split; [by rewrite <- ?app_assoc, ?app_nil_r|]).
  - intros id [[= ->]|[= ->]]; [|apply lookup_delete_eq].
    destruct (decide (k = id)) as [->|Hne]; [apply lookup_delete_eq|].
    rewrite lookup_delete_ne by done. apply lookup_delete_eq.
  - intros id [[= ->]|[=]]. apply lookup_delete_eq.
  - intros id [[=]|[= ->]]. apply lookup_delete_eq.
  - by intros id [[=]|[=]].
Qed.

Section Facts.
Variable write_throws : nat → bool.
Variable toISOString : Z → string.
Variable Date_parse : string → option Z.

Abbreviation setup := (setup write_throws toISOString).
Abbreviation step := (step write_throws toISOString Date_parse).
Abbreviation run := (run write_throws toISOString Date_parse).

Lemma stream_run_app monitorId t1 t2 c :
  run monitorId (t1 ++ t2) c
  = match run monitorId t1 c with
    | Some c1 => run monitorId t2 c1
    | None => None
    end.
Proof.
  revert c. induction t1 as [|a t1 IH]; intros c; simpl; [done|].
  destruct (step monitorId a c); [apply IH|done].
Qed.

Lemma torn_down_no_fire monitorId id now all c :
  torn_down c → step monitorId (Fire id now all) c = None.
Proof.
  unfold torn_down, control. intros [= _ _ _ Ht _]. simpl.
  by rewrite Ht, lookup_empty.
Qed.

Lemma step_torn_down monitorId a c c' :
  torn_down c → step monitorId a c = Some c' → torn_down c'.
Proof.
  intros Ht Hs.
  destruct (StatusApiFacts.step_spec write_throws toISOString Date_parse
              monitorId a c c' Hs) as [[Hc|Hc] _];
    unfold torn_down in *; rewrite Hc; [done|].
  rewrite StatusApiFacts.cleanup_when_closed; [done|].
  unfold control in Ht. by injection Ht.
Qed.

Lemma run_torn_down monitorId trace c c' :
  torn_down c → run monitorId trace c = Some c' →
  torn_down c'
  ∧ Forall (λ a, match a with Fire _ _ _ => False | _ => True end) trace.
Proof.
  revert c. induction trace as [|a trace IH]; intros c Ht; simpl.
  - intros [= <-]. by split.
  - destruct (step monitorId a c) as [c1|] eqn:Hs; [|discriminate].
    intros Hrun.
    destruct (IH c1 (step_torn_down _ _ _ _ Ht Hs) Hrun) as [Ht' Hall].
    split; [done|]. constructor; [|done].
    destruct a as [id now all| |]; [|done..].
    by rewrite torn_down_no_fire in Hs.
Qed.

(** X26.  On a connection whose first event was written, nothing fires
    after the client's disconnect: once 'close' has been handled both
    intervals are gone, each cleared exactly once (the polling one first),
    no interval callback can run in that or any later state, and no tick
    occurs in what follows. *)
Theorem no_tick_after_disconnect
    (has_flush : bool) (monitorId : option string) (now : Z)
    (before after : list Action) (c0 c : Conn) :
  write_throws 0%nat = false →
  write_throws 1%nat = false →
  setup true has_flush monitorId now = Some c0 →
  run monitorId (before ++ ClientClose :: after) c0 = Some c →
  closed c = true
  ∧ timers c = ∅
  ∧ cleared c = [1%nat; 0%nat]
  ∧ (∀ id now' all, step monitorId (Fire id now' all) c = None)
  ∧ Forall (λ a, match a with Fire _ _ _ => False | _ => True end) after.
Proof.
  intros H0 H1 Hs Hrun.
  destruct (StatusApiFacts.setup_first_event write_throws toISOString
              has_flush monitorId now H0 H1) as (c0' & Hs' & Hstream & _).
  rewrite Hs in Hs'. injection Hs' as <-.
  rewrite stream_run_app in Hrun.
  destruct (run monitorId before c0) as [c1|] eqn:Hb; [|discriminate].
  pose proof (StatusApiFacts.run_streaming_or_torn_down write_throws
                toISOString Date_parse monitorId before c0 c1
                (or_introl Hstream) Hb) as Hinv.
  cbn [StatusApi.run] in Hrun.
  destruct (step monitorId ClientClose c1) as [c2|] eqn:Hclose;
    [|discriminate].
  assert (torn_down c2) as Ht2.
  { simpl in Hclose. destruct (close_listener c1); [|discriminate].
    injection Hclose as <-. unfold torn_down, control. simpl.
    destruct Hinv as [H|H].
    - by apply StatusApiFacts.cleanup_streaming in H.
    - rewrite StatusApiFacts.cleanup_when_closed; [done|].
      unfold torn_down, control in H. by injection H. }
  destruct (run_torn_down monitorId after c2 c Ht2 Hrun) as [Ht Hall].
  pose proof Ht as Ht'. unfold torn_down, control in Ht'.
  injection Ht' as Hcl _ _ Htm Hclr.
  repeat split; try done.
  intros id now' all. by apply torn_down_no_fire.
Qed.

(** *** Framing *)

Lemma Framed_app l1 l2 : Framed l1 → Framed l2 → Framed (l1 ++ l2).
Proof. induction 1; simpl; intros; try constructor; auto. Qed.

Lemma Framed_event_blocks data extra :
  extra = [] ∨ extra = [EventStatus] ∨ extra = [EventStatus; Data data] →
  Framed extra.
Proof. intros [->|[->| ->]]; repeat constructor. Qed.

Lemma Framed_data_follows_event l :
  Framed l →
  ∀ i p, l !! i = Some (Data p) →
         ∃ j, i = S j ∧ l !! j = Some EventStatus.
Proof.
  induction 1 as [|p' rest H IH|rest H IH|rest H IH]; intros i p Hi.
  - by rewrite lookup_nil in Hi.
  - destruct i as [|[|i]]; [done|by exists 0%nat|].
    destruct (IH i p Hi) as (j & -> & Hj). by exists (S (S j)).
  - destruct i as [|i]; [done|].
    destruct (IH i p Hi) as (j & -> & Hj). by exists (S j).
  - destruct i as [|i]; [done|].
    destruct (IH i p Hi) as (j & -> & Hj). by exists (S j).
Qed.

Lemma step_framed monitorId a c c' :
  step monitorId a c = Some c' →
  ∃ block, written c' = written c ++ block ∧ Framed block.
Proof.
  destruct a as [id now all|now all|]; simpl.
  - destruct (timers c !! id) as [[]|]; [| |discriminate]; intros [= <-].
    + destruct (StatusApiFacts.keepAlive_tick_spec write_throws c)
        as [_ (extra & Hw & Hx)].
      exists extra. split; [done|]. destruct Hx as [->| ->]; repeat constructor.
    + unfold poll_tick.
      destruct (last _) as [latest|];
        match goal with
        | |- context [sendEvent _ ?d c] =>
            destruct (StatusApiFacts.sendEvent_spec write_throws d c)
              as [_ (extra & Hw & Hx)]
        end;
        exists extra; (split; [done|]); by apply Framed_event_blocks in Hx.
  - destruct (immediate_pending c); [|discriminate]. intros [= <-].
    unfold immediate_poll. simpl. destruct (last _) as [latest|].
    + match goal with
      | |- context [sendEvent _ ?d c] =>
          destruct (StatusApiFacts.sendEvent_spec write_throws d c)
            as [_ (extra & Hw & Hx)]
      end.
      exists extra. split; [done|]. by apply Framed_event_blocks in Hx.
    + exists []. split; [by rewrite app_nil_r|constructor].
  - destruct (close_listener c); [|discriminate]. intros [= <-]. simpl.
    exists []. rewrite StatusApiFacts.cleanup_written, app_nil_r.
    split; [done|constructor].
Qed.

Lemma setup_framed has_flush monitorId now c0 :
  setup true has_flush monitorId now = Some c0 → Framed (written c0).
Proof.
  unfold StatusApi.setup. simpl. intros [= <-]. simpl.
  match goal with
  | |- context [sendEvent _ ?d ?c] =>
      destruct (StatusApiFacts.sendEvent_spec write_throws d c)
        as [_ (extra & Hw & Hx)]
  end.
  rewrite Hw. simpl. by apply Framed_event_blocks in Hx.
Qed.

(** X27.  Whatever writes fail, the response keeps the framing of an
    event stream: it is a sequence of whole events (the event line, then
    its data line), event lines whose data line was lost to a failed
    write, and keep-alive comments; a data line never stands first and is
    always directly preceded by its event line. *)
Theorem response_is_well_framed
    (has_flush : bool) (monitorId : option string) (now : Z)
    (trace : list Action) (c0 c : Conn) :
  setup true has_flush monitorId now = Some c0 →
  run monitorId trace c0 = Some c →
  Framed (written c)
  ∧ ∀ i p, written c !! i = Some (Data p) →
           ∃ j, i = S j ∧ written c !! j = Some EventStatus.
Proof.
  intros Hs Hrun.
  assert (Framed (written c)) as Hf.
  { pose proof (setup_framed has_flush monitorId now c0 Hs) as Hf0.
    clear Hs. revert c0 Hf0 Hrun.
    induction trace as [|a trace IH]; intros c0 Hf0; simpl.
    - by intros [= <-].
    - destruct (step monitorId a c0) as [c1|] eqn:Hst; [|discriminate].
      apply IH. destruct (step_framed _ _ _ _ Hst) as (block & -> & Hb).
      by apply Framed_app. }
  split; [done|]. by apply Framed_data_follows_event.
Qed.

(** *** What a poll reports *)

Lemma sorted_last_is_max {A} (key : A → Z) (l : list A) (x : A) :
  Sorted (λ a b, key a ≤ key b) l →
  last l = Some x → ∀ y, y ∈ l → key y ≤ key x.
Proof.
  intros Hs. induction Hs as [|a l Hs IH Hhd]; intros Hl y Hy.
  - by apply elem_of_nil in Hy.
  - destruct l as [|b l].
    + simpl in Hl. injection Hl as <-.
      apply list_elem_of_singleton in Hy as ->. lia.
    + change (last (a :: b :: l)) with (last (b :: l)) in Hl.
      apply elem_of_cons in Hy as [->|Hy]; [|by apply IH].
      inversion Hhd; subst.
      assert (key b ≤ key x) by (apply IH; [done|left]). lia.
Qed.

Lemma uptime_bounds (rel : list (Metric * Z)) :
  rel ≠ [] → (0 <= uptime rel <= 100)%R.
Proof.
  intros Hne. unfold uptime. destruct rel as [|x rel]; [done|].
  set (ok := filter _ (x :: rel)).
  destruct (CheckAnomalyMore.fraction_bounds (INR (length ok))
              (INR (length (x :: rel)))) as [H0 H1].
  - split; [apply pos_INR|]. apply le_INR, length_filter.
  - apply CheckAnomalyMore.INR_length_pos.
  - split; lra.
Qed.

(** X28.  A poll whose two writes succeed sends one event.  With no
    metric of the monitor in the last 60 minutes it is the empty marker;
    otherwise it carries the timestamp, latency, status code and success
    of a sample of the window that no other sample of the window is later
    than, and an uptime between 0 and 100. *)
Theorem poll_reports_latest_sample
    (monitorId : option string) (now : Z) (all : list Metric) (c : Conn) :
  write_throws (writes c) = false →
  write_throws (S (writes c)) = false →
  let window := in_window Date_parse monitorId (now - 60 * 60 * 1000) all in
  ∃ p,
    written (poll_tick write_throws toISOString Date_parse monitorId now
                       all c)
    = written c ++ [EventStatus; Data p]
    ∧ (window = [] → p = empty_event toISOString monitorId now)
    ∧ (window ≠ [] →
       ∃ latest,
         latest ∈ window
         ∧ (∀ x, x ∈ window → x.2 ≤ latest.2)
         ∧ p_timestamp p = Val (m_timestamp latest.1)
         ∧ p_latency p = of_option (m_latency latest.1)
         ∧ p_statusCode p = of_option (m_statusCode latest.1)
         ∧ p_success p = of_option (m_success latest.1)
         ∧ ∃ u, p_uptimePercent p = Val u ∧ (0 <= u <= 100)%R).
Proof.
  intros H0 H1 window.
  assert (∀ d, written (sendEvent write_throws d c)
               = written c ++ [EventStatus; Data d]) as Hsend.
  { intros d. unfold sendEvent, write. simpl. rewrite H0. simpl.
    rewrite H1. simpl. by rewrite <- app_assoc. }
  unfold poll_tick, relevant. fold window.
  pose proof (CheckAnomalyFacts.sort_by_perm snd window) as Hperm.
  pose proof (CheckAnomalyFacts.sort_by_sorted snd window) as Hsorted.
  set (rel := CheckAnomaly.sort_by snd window) in *.
  destruct (last rel) as [latest|] eqn:Hlast.
  - eexists. split; [apply Hsend|]. split.
    + intros Hw. rewrite Hw in Hperm. apply Permutation_nil_r in Hperm.
      by rewrite Hperm in Hlast.
    + intros _. exists latest.
      split; [rewrite <- Hperm; by apply last_Some_elem_of|].
      split.
      { intros x Hx. apply (sorted_last_is_max snd rel latest Hsorted Hlast).
        by rewrite Hperm. }
      repeat (split; [reflexivity|]).
      eexists. split; [reflexivity|]. apply uptime_bounds.
      intros Hnil. by rewrite Hnil in Hlast.
  - eexists. split; [apply Hsend|]. split; [done|].
    intros Hne. exfalso. apply Hne.
    apply last_None in Hlast. rewrite Hlast in Hperm.
    by apply Permutation_nil_l in Hperm.
Qed.

End Facts.

Lemma no_tick_after_disconnect_witness :
  let c :=
    reached never_throws
      ([Fire 0 3000 []; Fire 1 4000 []]
       ++ ClientClose :: [ImmediatePoll 5000 []]) in
  closed c = true
  ∧ timers c = ∅
  ∧ cleared c = [1%nat; 0%nat]
  ∧ (∀ id now' all,
       StatusApi.step never_throws demo_iso (fun _ => None)
                      (Some "m1"%string) (Fire id now' all) c = None)
  ∧ Forall (λ a, match a with Fire _ _ _ => False | _ => True end)
           [ImmediatePoll 5000 []].
Proof.
  intros c.
  apply (no_tick_after_disconnect never_throws demo_iso (fun _ => None)
           true (Some "m1"%string) 0 [Fire 0 3000 []; Fire 1 4000 []]
           [ImmediatePoll 5000 []] (opened never_throws) c);
    vm_compute; reflexivity.
Defined.

(** A response in which every second write fails. *)
Lemma response_is_well_framed_witness :
  let c := reached Nat.odd [Fire 1 2000 []; Fire 0 3000 []; ClientClose] in
  Framed (written c)
  ∧ ∀ i p, written c !! i = Some (Data p) →
           ∃ j, i = S j ∧ written c !! j = Some EventStatus.
Proof.
  intros c.
  apply (response_is_well_framed Nat.odd demo_iso (fun _ => None) true
           (Some "m1"%string) 0
           [Fire 1 2000 []; Fire 0 3000 []; ClientClose]
           (opened Nat.odd) c);
    vm_compute; reflexivity.
Defined.

Lemma poll_reports_latest_sample_witness :
  let window :=
    in_window CheckAnomaly.demo_parse (Some "m1"%string)
              (3690000 - 60 * 60 * 1000)
              [CheckAnomaly.steady; CheckAnomaly.spike] in
  ∃ p,
    written (poll_tick never_throws demo_iso CheckAnomaly.demo_parse
                       (Some "m1"%string) 3690000
                       [CheckAnomaly.steady; CheckAnomaly.spike] idle)
    = written idle ++ [EventStatus; Data p]
    ∧ (window = [] → p = empty_event demo_iso (Some "m1"%string) 3690000)
    ∧ (window ≠ [] →
       ∃ latest,
         latest ∈ window
         ∧ (∀ x, x ∈ window → x.2 ≤ latest.2)
         ∧ p_timestamp p = Val (m_timestamp latest.1)
         ∧ p_latency p = of_option (m_latency latest.1)
         ∧ p_statusCode p = of_option (m_statusCode latest.1)
         ∧ p_success p = of_option (m_success latest.1)
         ∧ ∃ u, p_uptimePercent p = Val u ∧ (0 <= u <= 100)%R).
Proof.
  exact (poll_reports_latest_sample never_throws demo_iso
           CheckAnomaly.demo_parse (Some "m1"%string) 3690000
           [CheckAnomaly.steady; CheckAnomaly.spike] idle eq_refl eq_refl).
Defined.

(** Cleanup from the keep-alive write failure and then from the
    disconnect: each interval is cleared once. *)
Lemma teardown_after_first_event_witness :
  let c :=
    reached (fun n => Nat.eqb n 2) [Fire 0 3000 []; ClientClose] in
  (closed c = false → timers c = both_timers ∧ cleared c = [])
  ∧ (closed c = true → timers c = ∅ ∧ cleared c = [1%nat; 0%nat]).
Proof.
  intros c.
  apply (StatusApiFacts.teardown_after_first_event (fun n => Nat.eqb n 2)
           demo_iso (fun _ => None) true (Some "m1"%string) 0
           [Fire 0 3000 []; ClientClose] (opened (fun n => Nat.eqb n 2)) c);
    vm_compute; reflexivity.
Defined.

End StatusApiMore.

(** ** The page script *)

Module FrontendFacts.
Import Frontend.

Lemma chars_app (a b : string) : chars (a ++ b) = chars a ++ chars b.
Proof. induction a as [|x a IH]; simpl; [done|by rewrite IH]. Qed.

(** A character of the result of a replacement is a character of the
    entity or a character of the text other than the replaced one. *)
Lemma replace_all_chars (c : Ascii.ascii) (entity s : string) x :
  x ∈ chars (replace_all c entity s) →
  x ∈ chars entity ∨ (x ∈ chars s ∧ x ≠ c).
Proof.
  induction s as [|a s IH]; simpl; [intros H; by apply elem_of_nil in H|].
  destruct (Ascii.eqb_spec a c) as [->|Hne].
  - rewrite chars_app, elem_of_app. intros [H|H]; [by left|].
    destruct (IH H) as [?|[? ?]]; [by left|right]. split; [by right|done].
  - simpl. rewrite elem_of_cons. intros [->|H].
    + right. split; [left|done].
    + destruct (IH H) as [?|[? ?]]; [by left|right]. split; [by right|done].
Qed.

Lemma replace_all_absent (c : Ascii.ascii) (entity s : string) :
  c ∉ chars s → replace_all c entity s = s.
Proof.
  induction s as [|a s IH]; simpl; [done|]. intros Hc.
  destruct (Ascii.eqb_spec a c) as [->|Hne]; [destruct Hc; left|].
  rewrite IH; [done|]. intros H. apply Hc. by right.
Qed.

Ltac not_in_entity H :=
  simpl in H;
  repeat (apply elem_of_cons in H as [H|H]; [by subst|]);
  by apply elem_of_nil in H.

(** X29.  [escapeHtml] leaves none of the characters <, >, the double
    quote and the apostrophe in its result, and a text that has none of
    the five special characters is returned unchanged. *)
Theorem escapeHtml_removes_markup (str : string) :
  (∀ x, x ∈ chars (escapeHtml str) →
        x ≠ c_lt ∧ x ≠ c_gt ∧ x ≠ c_quot ∧ x ≠ c_apos)
  ∧ ((∀ x, x ∈ chars str →
           x ≠ c_amp ∧ x ≠ c_lt ∧ x ≠ c_gt ∧ x ≠ c_quot ∧ x ≠ c_apos) →
     escapeHtml str = str).
Proof.
  split.
  - intros x H5. unfold escapeHtml in H5.
    apply replace_all_chars in H5 as [H5|[H4 N5]];
      [repeat split; intros ->; not_in_entity H5|].
    apply replace_all_chars in H4 as [H4|[H3 N4]];
      [repeat split; intros ->; not_in_entity H4|].
    apply replace_all_chars in H3 as [H3|[H2 N3]];
      [repeat split; intros ->; not_in_entity H3|].
    apply replace_all_chars in H2 as [H2|[H1 N2]];
      [repeat split; intros ->; not_in_entity H2|].
    done.
  - intros Hplain. unfold escapeHtml.
    assert (∀ c, c = c_amp ∨ c = c_lt ∨ c = c_gt ∨ c = c_quot ∨ c = c_apos →
                 c ∉ chars str) as Habsent.
    { intros c Hc Hin. apply Hplain in Hin. intuition congruence. }
    rewrite (replace_all_absent c_amp) by (apply Habsent; tauto).
    rewrite (replace_all_absent c_lt) by (apply Habsent; tauto).
    rewrite (replace_all_absent c_gt) by (apply Habsent; tauto).
    rewrite (replace_all_absent c_quot) by (apply Habsent; tauto).
    apply replace_all_absent. apply Habsent. tauto.
Qed.

Example escapeHtml_script :
  escapeHtml "<a href='x'>&</a>"
  = "&lt;a href=&#39;x&#39;&gt;&amp;&lt;/a&gt;"%string.
Proof. reflexivity. Qed.

End FrontendFacts.
